(** * Connector: chunked transfer of dataframes to and from a SQL store

    A shallow embedding of [connectors.py] (class [Connector]) and of the
    library functions it calls, followed by the properties of the class. *)

From Stdlib Require Import ZArith Lia Ascii String List.
From stdpp Require Import base option list gmap strings.

Local Open Scope Z_scope.
Local Open Scope string_scope.

(** ** Python values, exceptions and results *)

Module Py.

(** The exception classes the code can meet.  [BackendError] stands for
    the driver's own errors (the SQLAlchemy / DBAPI hierarchy), which are
    not subclasses of [ValueError].  [ArithmeticError] is the class of the
    two exceptions a division by a zero chunk size ends in:
    [ZeroDivisionError] where [df.size] is a Python integer (pandas 2) and
    [OverflowError], from [math.ceil] of the infinite quotient, where it
    is a numpy integer (pandas 1).  Neither is a [ValueError]. *)
Inductive exn : Type :=
| KeyError (key : string)
| AttributeError (attr : string)
| TypeError (msg : string)
| ValueError (msg : string)
| IndexError (msg : string)
| ArithmeticError
| BackendError (msg : string).

(** [except ValueError] *)
Definition is_ValueError (e : exn) : bool :=
  match e with ValueError _ => true | _ => false end.

Inductive result (A : Type) : Type :=
| Ok (a : A)
| Raise (e : exn).
Arguments Ok {A} a.
Arguments Raise {A} e.

Definition is_Ok {A} (r : result A) : bool :=
  match r with Ok _ => true | Raise _ => false end.

(** Values that travel in keyword arguments. *)
Inductive value : Type :=
| VNone
| VBool (b : bool)
| VInt (z : Z)
| VStr (s : string).

(** A keyword dictionary, as a call receives it. *)
Abbreviation kwargs := (gmap string value).

End Py.
Export Py.

(** ** Strings: [in], [str.format], [urllib.parse.quote_plus] *)

Module Str.

Fixpoint startswith (s p : string) : bool :=
  match p, s with
  | EmptyString, _ => true
  | String a p', String b s' => if Ascii.eqb a b then startswith s' p' else false
  | String _ _, EmptyString => false
  end.

(** [sub in s] on strings *)
Fixpoint contains (sub s : string) : bool :=
  if startswith s sub then true
  else match s with
       | EmptyString => false
       | String _ s' => contains sub s'
       end.

(** [s.replace(a, b)] for single characters *)
Fixpoint replace (a b : ascii) (s : string) : string :=
  match s with
  | EmptyString => EmptyString
  | String c s' => String (if Ascii.eqb c a then b else c) (replace a b s')
  end.

(** A format string is a sequence of literal runs and named fields. *)
Inductive piece : Type :=
| Lit (s : string)
| Field (name : string).

(** Reads up to the closing brace of a field; [None] when it is missing. *)
Fixpoint until_brace (s : string) : option (string * string) :=
  match s with
  | EmptyString => None
  | String c s' =>
      if Ascii.eqb c "}"%char then Some (EmptyString, s')
      else match until_brace s' with
           | Some (name, rest) => Some (String c name, rest)
           | None => None
           end
  end.

(** The format strings of this class use plain [{name}] fields only: no
    escaped braces, conversions or format specifications. *)
Fixpoint parse_fuel (fuel : nat) (s : string) : list piece :=
  match fuel with
  | O => []
  | S fuel' =>
      match s with
      | EmptyString => []
      | String c s' =>
          if Ascii.eqb c "{"%char then
            match until_brace s' with
            | Some (name, rest) => Field name :: parse_fuel fuel' rest
            | None => [Lit s]
            end
          else
            match parse_fuel fuel' s' with
            | Lit l :: ps => Lit (String c l) :: ps
            | ps => Lit (String c EmptyString) :: ps
            end
      end
  end.

Definition parse (s : string) : list piece := parse_fuel (S (String.length s)) s.

Fixpoint format_pieces (ps : list piece) (kw : gmap string string) : result string :=
  match ps with
  | [] => Ok EmptyString
  | Lit l :: ps' =>
      match format_pieces ps' kw with
      | Ok r => Ok (l +:+ r)
      | Raise e => Raise e
      end
  | Field k :: ps' =>
      match kw !! k with
      | None => Raise (KeyError k)
      | Some v =>
          match format_pieces ps' kw with
          | Ok r => Ok (v +:+ r)
          | Raise e => Raise e
          end
      end
  end.

(** [tpl.format] applied to the keywords [kw]: the fields are looked up from left to right and
    the first one missing raises [KeyError]. *)
Definition format (tpl : string) (kw : gmap string string) : result string :=
  format_pieces (parse tpl) kw.

(** *** [urllib.parse.quote_plus]

    A string is its sequence of UTF-8 bytes, so quoting works on the
    characters of the Rocq string directly. *)

Definition in_range (lo hi : N) (c : ascii) : bool :=
  (N.leb lo (N_of_ascii c) && N.leb (N_of_ascii c) hi)%bool.

Definition mem_char (c : ascii) (s : string) : bool :=
  existsb (Ascii.eqb c) (list_ascii_of_string s).

(** [_ALWAYS_SAFE]: letters, digits and [_.-~] *)
Definition always_safe (c : ascii) : bool :=
  (in_range 65 90 c || in_range 97 122 c || in_range 48 57 c
   || mem_char c "_.-~")%bool.

Definition hex_digit (n : N) : ascii :=
  if N.ltb n 10 then ascii_of_N (48 + n) else ascii_of_N (55 + n).

(** The quoter of [quote_from_bytes]: a safe byte stays, any other byte
    becomes [%XX] in upper-case hexadecimal. *)
Definition quoter (safe : string) (c : ascii) : string :=
  if (always_safe c || mem_char c safe)%bool then String c EmptyString
  else String "%"%char
         (String (hex_digit (N.div (N_of_ascii c) 16))
            (String (hex_digit (N.modulo (N_of_ascii c) 16)) EmptyString)).

Fixpoint quote (safe : string) (s : string) : string :=
  match s with
  | EmptyString => EmptyString
  | String c s' => quoter safe c +:+ quote safe s'
  end.

(** [quote_plus(string)] with its default [safe=''] *)
Definition quote_plus (s : string) : string :=
  if negb (mem_char " "%char s) then quote "" s
  else replace " "%char "+"%char (quote " " s).

End Str.

(** ** Dataframes, [numpy.array_split], [pandas.concat], [itertools.islice] *)

(** A dataframe: named columns and an ordered sequence of rows. *)
Record DataFrame : Type := mkDataFrame {
  columns : list string;
  rows : list (list value)
}.

(** [df.shape] *)
Definition shape (df : DataFrame) : nat * nat :=
  (length (rows df), length (columns df)).

(** [df.size]: the number of cells, rows times columns *)
Definition size (df : DataFrame) : Z :=
  Z.of_nat (length (rows df)) * Z.of_nat (length (columns df)).

(** [df[st:end]] for [0 <= st] and [0 <= end]: a row slice *)
Definition slice (df : DataFrame) (st en : nat) : DataFrame :=
  {| columns := columns df; rows := take (en - st) (drop st (rows df)) |}.

Module Np.

Fixpoint cumsum_from (acc : nat) (l : list nat) : list nat :=
  match l with
  | [] => []
  | x :: l' => (acc + x)%nat :: cumsum_from (acc + x) l'
  end.

Definition cumsum (l : list nat) : list nat := cumsum_from 0 l.

(** The section sizes of [array_split]: [extras] sections of one more
    row come first. *)
Definition section_sizes (Ntotal Nsections : nat) : list nat :=
  let Neach_section := (Ntotal / Nsections)%nat in
  let extras := (Ntotal mod Nsections)%nat in
  [0%nat] ++ replicate extras (Neach_section + 1)%nat
          ++ replicate (Nsections - extras) Neach_section.

(** [np.array_split(ary, indices_or_sections)] along axis 0, for an
    integer number of sections *)
Definition array_split (ary : DataFrame) (indices_or_sections : Z)
  : result (list DataFrame) :=
  let Ntotal := length (rows ary) in
  if (indices_or_sections <=? 0)%Z then
    Raise (ValueError "number sections must be larger than 0.")
  else
    let Nsections := Z.to_nat indices_or_sections in
    let div_points := cumsum (section_sizes Ntotal Nsections) in
    Ok (map (fun i => slice ary (nth i div_points 0%nat)
                                (nth (i + 1) div_points 0%nat))
            (seq 0 Nsections)).

End Np.

Module Pd.

(** The lazy chunk sequence a chunked read returns: it ends, yields a
    chunk and goes on, or raises when the next chunk is fetched. *)
Inductive generator : Type :=
| Stop
| Yield (df : DataFrame) (rest : generator)
| Fail (e : exn).

Fixpoint gtake (n : nat) (g : generator) : generator :=
  match n with
  | O => Stop
  | S n' =>
      match g with
      | Yield df rest => Yield df (gtake n' rest)
      | Stop => Stop
      | Fail e => Fail e
      end
  end.

(** [sys.maxsize] of the 64-bit builds of CPython *)
Definition sys_maxsize : Z := 2 ^ 63 - 1.

(** [islice(iterable, stop)]: a [stop] that is negative or above
    [sys.maxsize] raises [ValueError] when the slice is made; otherwise
    nothing is fetched past [stop] items. *)
Definition islice (g : generator) (stop : option Z) : result generator :=
  match stop with
  | None => Ok g
  | Some n =>
      if (n <? 0)%Z then
        Raise (ValueError "Stop argument for islice() must be None or an integer: 0 <= x <= sys.maxsize.")
      else if (sys_maxsize <? n)%Z then
        Raise (ValueError "Stop argument for islice() must be None or an integer: 0 <= x <= sys.maxsize.")
      else Ok (gtake (Z.to_nat n) g)
  end.

(** [list(objs)] *)
Fixpoint to_list (g : generator) : result (list DataFrame) :=
  match g with
  | Stop => Ok []
  | Yield df rest =>
      match to_list rest with
      | Ok l => Ok (df :: l)
      | Raise e => Raise e
      end
  | Fail e => Raise e
  end.

(** [pd.concat(objs, axis=0)] on the chunks of one table, which share
    their columns: the rows follow each other in arrival order. *)
Definition concat (objs : generator) : result DataFrame :=
  match to_list objs with
  | Raise e => Raise e
  | Ok [] => Raise (ValueError "No objects to concatenate")
  | Ok (df :: dfs) =>
      Ok {| columns := columns df;
            rows := List.concat (map rows (df :: dfs)) |}
  end.

End Pd.

(** [int(math.ceil(a / b))] for [b <> 0].  The source divides in floating
    point; for a cell count and a chunk size below 2^53, as every table
    in memory has, the rounded quotient has the same ceiling as the exact
    one. *)
Definition ceil_div (a b : Z) : Z := - ((- a) / b).

(** ** The backend and the observable effects *)

(** What [create_engine] returns, with the state of the
    [before_cursor_execute] hook that turns [fast_executemany] on. *)
Record Engine : Type := mkEngine {
  url : string;
  fast_executemany_hook : bool
}.

Inductive Logger : Type := LoggerHandle (name : string).

(** The handle [connection.execute] returns. *)
Inductive ResultProxy : Type := ResultHandle (fetched : list (list value)).

(** The driver and the database behind it.  Every operation may raise and
    may change the store. *)
Record Backend : Type := mkBackend {
  db : Type;
  create_engine : string -> db -> result unit * db;
  to_sql : string -> DataFrame -> Engine -> kwargs -> db -> result unit * db;
  read_sql_table : string -> Engine -> kwargs -> db -> result Pd.generator * db;
  read_sql : string -> Engine -> db -> result DataFrame * db;
  read_sql_query : string -> Engine -> db -> result DataFrame * db;
  connect : Engine -> db -> result nat * db;
  execute : nat -> string -> db -> result ResultProxy * db;
  close : nat -> db -> result unit * db
}.

(** The text of a log record; the elapsed seconds the source appends to
    two of them come from the clock and are left out. *)
Inductive log_msg : Type :=
| InitiatedEngine (address db_name user : string)
| Wrote (name : string) (shp : nat * nat)
| Fetched (name : string) (shp : nat * nat)
| NoObjects (table_name : string)
| RanQuery (q : string).

(** The calls that leave the class, in the order they are issued. *)
Inductive event : Type :=
| CreateEngine (u : string)
| LogInfo (m : log_msg)
| LogWarning (m : log_msg)
| ToSql (table_name : string) (df : DataFrame) (kw : kwargs)
| ReadSqlTable (table_name : string) (kw : kwargs)
| ReadSql (q : string)
| ReadSqlQuery (q : string)
| Connect (c : nat)
| Execute (c : nat) (q : string)
| Close (c : nat).

(** The [to_sql] calls of a trace *)
Fixpoint writes_of (t : list event) : list (string * DataFrame * kwargs) :=
  match t with
  | [] => []
  | ToSql n d k :: t' => (n, d, k) :: writes_of t'
  | _ :: t' => writes_of t'
  end.

(** The connections a trace acquired and has not closed *)
Fixpoint open_connections (t : list event) (acc : list nat) : list nat :=
  match t with
  | [] => acc
  | Connect c :: t' => open_connections t' (acc ++ [c])
  | Close c :: t' => open_connections t' (filter (fun x => x ≠ c) acc)
  | _ :: t' => open_connections t' acc
  end.

(** ** The class *)

(** The attributes of an instance; [engine] is [None] until
    [_init_engine] has set the attribute.  The method [_init_cursor] is
    not in use and is left out, with its [cursor] attribute. *)
Record Connector : Type := mkConnector {
  logger : option Logger;
  engine_args : gmap string string;
  connection_string : string;
  engine : option Engine
}.

Definition set_connection_string (s : string) (c : Connector) : Connector :=
  {| logger := logger c; engine_args := engine_args c;
     connection_string := s; engine := engine c |}.

Definition set_engine (e : Engine) (c : Connector) : Connector :=
  {| logger := logger c; engine_args := engine_args c;
     connection_string := connection_string c; engine := Some e |}.

(** [Connector(engine_args, logger)] *)
Definition __init__ (engine_args : gmap string string) (logger : option Logger)
  : result Connector :=
  match Str.format "{db_type}://{user}:{password}@{address}" engine_args with
  | Raise e => Raise e
  | Ok connection_string =>
      let self := {| logger := logger; engine_args := engine_args;
                     connection_string := connection_string; engine := None |} in
      match engine_args !! "db_type" with
      | None => Ok self
      | Some db_type =>
          match Str.format "/{db_name}" engine_args with
          | Raise e => Raise e
          | Ok tail =>
              let self := set_connection_string (connection_string +:+ tail) self in
              if Str.contains "pyodbc" db_type then
                match Str.format "DRIVER={driver};SERVER={address};DATABASE={db_name};UID={user};PWD={password}" engine_args with
                | Raise e => Raise e
                | Ok conn =>
                    match engine_args !! "conn" with
                    | Some _ =>
                        Raise (TypeError "str.format() got multiple values for keyword argument 'conn'")
                    | None =>
                        match Str.format "{db_type}:///?odbc_connect={conn}"
                                (<["conn" := Str.quote_plus conn]> engine_args) with
                        | Raise e => Raise e
                        | Ok s => Ok (set_connection_string s self)
                        end
                    end
                end
              else Ok self
          end
      end
  end.

Section Methods.

Context (B : Backend).

(** The instance, the store behind the driver and the calls issued. *)
Record state : Type := mkState {
  self : Connector;
  store : db B;
  trace : list event
}.

(** A method runs on a state and returns or raises; what it did before
    raising stays done. *)
Definition M (A : Type) : Type := state -> result A * state.

Definition ret {A} (a : A) : M A := fun s => (Ok a, s).
Definition raise {A} (e : exn) : M A := fun s => (Raise e, s).
Definition bind {A C} (m : M A) (k : A -> M C) : M C :=
  fun s => match m s with
           | (Ok a, s') => k a s'
           | (Raise e, s') => (Raise e, s')
           end.
Definition lift {A} (r : result A) : M A := fun s => (r, s).

(** [try: m  except ValueError: h] *)
Definition try_except_ValueError {A} (m : M A) (h : M A) : M A :=
  fun s => match m s with
           | (Raise e, s') => if is_ValueError e then h s' else (Raise e, s')
           | r => r
           end.

Definition emit (ev : event) : M unit :=
  fun s => (Ok tt, {| self := self s; store := store s; trace := trace s ++ [ev] |}).

Definition call {A} (f : db B -> result A * db B) : M A :=
  fun s => let (r, d) := f (store s) in
           (r, {| self := self s; store := d; trace := trace s |}).

Definition get_self : M Connector := fun s => (Ok (self s), s).

Definition assign_engine (e : Engine) : M unit :=
  fun s => (Ok tt, {| self := set_engine e (self s); store := store s; trace := trace s |}).

(** [self.engine] *)
Definition getattr_engine : M Engine :=
  fun s => match engine (self s) with
           | Some e => (Ok e, s)
           | None => (Raise (AttributeError "engine"), s)
           end.

(** [self.engine_args[k]] *)
Definition getitem_engine_args (k : string) : M string :=
  fun s => match engine_args (self s) !! k with
           | Some v => (Ok v, s)
           | None => (Raise (KeyError k), s)
           end.

Definition when (b : bool) (m : M unit) : M unit := if b then m else ret tt.

(** [if self.logger:] *)
Definition has_logger (c : Connector) : bool :=
  match logger c with Some _ => true | None => false end.

End Methods.

Arguments ret {B A} a.
Arguments raise {B A} e.
Arguments bind {B A C} m k.
Arguments lift {B A} r.
Arguments try_except_ValueError {B A} m h.
Arguments emit {B} ev.
Arguments call {B A} f.
Arguments get_self {B}.
Arguments assign_engine {B} e.
Arguments getattr_engine {B}.
Arguments getitem_engine_args {B} k.
Arguments when {B} b m.
Arguments self {B} s.
Arguments store {B} s.
Arguments trace {B} s.
Arguments mkState {B} self store trace.

Notation "x <- m ;; k" := (bind m (fun x => k))
  (at level 100, m at next level, right associativity).
Notation "m ;;; k" := (bind m (fun _ => k))
  (at level 100, right associativity).

Section Connector.

Context {B : Backend}.

(** [_init_engine(SET_FAST_EXECUTEMANY_SWITCH=True)] *)
Definition _init_engine (SET_FAST_EXECUTEMANY_SWITCH : bool) : M B unit :=
  me <- get_self ;;
  emit (CreateEngine (connection_string me)) ;;;
  call (create_engine B (connection_string me)) ;;;
  assign_engine {| url := connection_string me;
                   fast_executemany_hook := SET_FAST_EXECUTEMANY_SWITCH |} ;;;
  if has_logger me then
    address <- getitem_engine_args "address" ;;
    db_name <- getitem_engine_args "db_name" ;;
    user <- getitem_engine_args "user" ;;
    emit (LogInfo (InitiatedEngine address db_name user))
  else ret tt.

(** [if not hasattr(self, 'engine'): self._init_engine()] *)
Definition ensure_engine : M B unit :=
  me <- get_self ;;
  match engine me with
  | None => _init_engine true
  | Some _ => ret tt
  end.

(** [__write_df(table_name, df, **kwargs)].  A clash between a driver
    option and the [con] keyword surfaces from the call like any other
    exception of [to_sql]. *)
Definition __write_df (table_name : string) (df : DataFrame) (kw : kwargs)
  : M B bool :=
  con <- getattr_engine ;;
  emit (ToSql table_name df kw) ;;;
  call (to_sql B table_name df con kw) ;;;
  ret true.

(** [for df in dfs: self.__write_df(table_name, df, if_exists = 'append', **kwargs)] *)
Fixpoint write_appending (table_name : string) (dfs : list DataFrame) (kw : kwargs)
  : M B unit :=
  match dfs with
  | [] => ret tt
  | df :: dfs' =>
      __write_df table_name df (<["if_exists" := VStr "append"]> kw) ;;;
      write_appending table_name dfs' kw
  end.

(** [__write_split_df(table_name, dfs, **kwargs)] *)
Definition __write_split_df (table_name : string) (dfs : list DataFrame)
  (kw : kwargs) : M B bool :=
  match dfs with
  | [] => raise (IndexError "list index out of range")
  | df0 :: dfs' =>
      __write_df table_name df0 kw ;;;
      match kw !! "if_exists" with
      | None => raise (KeyError "if_exists")
      | Some _ =>
          write_appending table_name dfs' (delete "if_exists" kw) ;;;
          ret true
      end
  end.

(** [__split_df(df, chunksize)] *)
Definition __split_df (df : DataFrame) (chunksize : Z) : result (list DataFrame) :=
  if (chunksize =? 0)%Z then Raise ArithmeticError
  else
    let chunk_count := ceil_div (size df) chunksize in
    Np.array_split df chunk_count.

(** [set_df(table_name, df, if_exists, chunksize, **kwargs)]; the
    defaults are [if_exists = 'replace'] and [chunksize = 10**6].  The
    named parameters never appear in [kwargs].  A driver option named
    [dfs] meets the parameter of that name in the call of
    [__write_split_df], which then raises [TypeError] before its body
    runs. *)
Definition set_df (table_name : string) (df : DataFrame) (if_exists : value)
  (chunksize : option Z) (kw : kwargs) : M B bool :=
  status <-
    match chunksize with
    | Some c =>
        if (c <? size df)%Z then
          dfs <- lift (__split_df df c) ;;
          match kw !! "dfs" with
          | Some _ =>
              raise (TypeError "__write_split_df() got multiple values for argument 'dfs'")
          | None =>
              __write_split_df table_name dfs (<["if_exists" := if_exists]> kw)
          end
        else __write_df table_name df (<["if_exists" := VStr "replace"]> kw)
    | None => __write_df table_name df (<["if_exists" := VStr "replace"]> kw)
    end ;;
  me <- get_self ;;
  when (has_logger me) (emit (LogInfo (Wrote table_name (shape df)))) ;;;
  ret status.

(** [if 'chunksize' not in kwargs.keys(): kwargs['chunksize'] = 10**6] *)
Definition with_default_chunksize (kw : kwargs) : kwargs :=
  match kw !! "chunksize" with
  | None => <["chunksize" := VInt (10 ^ 6)]> kw
  | Some _ => kw
  end.

(** [get_df(table_name, chunk_count=None, **kwargs)]; [None] is the
    "no data" answer. *)
Definition get_df (table_name : string) (chunk_count : option Z) (kw : kwargs)
  : M B (option DataFrame) :=
  let kw := with_default_chunksize kw in
  con <- getattr_engine ;;
  emit (ReadSqlTable table_name kw) ;;;
  dfs <- call (read_sql_table B table_name con kw) ;;
  me <- get_self ;;
  fetched <-
    try_except_ValueError
      (sliced <- lift (Pd.islice dfs chunk_count) ;;
       df <- lift (Pd.concat sliced) ;;
       ret (Some df))
      (when (has_logger me) (emit (LogWarning (NoObjects table_name))) ;;;
       ret None) ;;
  match fetched with
  | None => ret None
  | Some df =>
      when (has_logger me) (emit (LogInfo (Fetched table_name (shape df)))) ;;;
      ret (Some df)
  end.

Definition tables_query : string :=
  "SELECT * FROM INFORMATION_SCHEMA.TABLES WHERE TABLE_TYPE='BASE TABLE'".

(** [get_table_names()] *)
Definition get_table_names : M B DataFrame :=
  ensure_engine ;;;
  con <- getattr_engine ;;
  emit (ReadSql tables_query) ;;;
  call (read_sql B tables_query con).

(** [query(_query, logging=False)] *)
Definition query (_query : string) (logging : bool) : M B ResultProxy :=
  ensure_engine ;;;
  eng <- getattr_engine ;;
  connection <- call (connect B eng) ;;
  emit (Connect connection) ;;;
  emit (Execute connection _query) ;;;
  result <- call (execute B connection _query) ;;
  me <- get_self ;;
  when (logging && has_logger me) (emit (LogInfo (RanQuery _query))) ;;;
  emit (Close connection) ;;;
  call (close B connection) ;;;
  ret result.

(** [df_query(_query)] *)
Definition df_query (_query : string) : M B DataFrame :=
  ensure_engine ;;;
  con <- getattr_engine ;;
  emit (ReadSqlQuery _query) ;;;
  call (read_sql_query B _query con).

End Connector.

(** ** A small in-memory backend and sample inputs

    Used to run the methods on concrete inputs. *)

Module Demo.

Definition tables : Type := gmap string DataFrame.

Definition append_rows (old new : DataFrame) : DataFrame :=
  {| columns := columns old; rows := rows old ++ rows new |}.

(** [to_sql] with the three [if_exists] policies of pandas *)
Definition demo_to_sql (name : string) (df : DataFrame) (con : Engine)
  (kw : kwargs) (d : tables) : result unit * tables :=
  match kw !! "if_exists" with
  | Some (VStr mode) =>
      if String.eqb mode "replace" then (Ok tt, <[name := df]> d)
      else if String.eqb mode "append" then
        match d !! name with
        | Some old => (Ok tt, <[name := append_rows old df]> d)
        | None => (Ok tt, <[name := df]> d)
        end
      else if String.eqb mode "fail" then
        match d !! name with
        | Some _ => (Raise (ValueError "Table already exists."), d)
        | None => (Ok tt, <[name := df]> d)
        end
      else (Raise (ValueError "not a valid value for if_exists"), d)
  | _ => (Raise (ValueError "not a valid value for if_exists"), d)
  end.

(** A chunked read that yields the table as one chunk, and no chunk
    for a table without rows. *)
Definition demo_read_sql_table (name : string) (con : Engine) (kw : kwargs)
  (d : tables) : result Pd.generator * tables :=
  match d !! name with
  | None => (Raise (ValueError "Table not found"), d)
  | Some df =>
      match rows df with
      | [] => (Ok Pd.Stop, d)
      | _ :: _ => (Ok (Pd.Yield df Pd.Stop), d)
      end
  end.

Definition empty_frame : DataFrame := {| columns := []; rows := [] |}.

(** Statements other than a SELECT are rejected by this backend. *)
Definition demo_execute (c : nat) (q : string) (d : tables)
  : result ResultProxy * tables :=
  if Str.startswith q "SELECT" then (Ok (ResultHandle []), d)
  else (Raise (BackendError "syntax error"), d).

Definition backend : Backend :=
  {| db := tables;
     create_engine := fun _ d => (Ok tt, d);
     to_sql := demo_to_sql;
     read_sql_table := demo_read_sql_table;
     read_sql := fun _ _ d => (Ok empty_frame, d);
     read_sql_query := fun _ _ d => (Ok empty_frame, d);
     connect := fun _ d => (Ok 1%nat, d);
     execute := demo_execute;
     close := fun _ d => (Ok tt, d) |}.

Definition postgres_args : gmap string string :=
  <["db_type" := "postgresql"]> (<["user" := "u"]> (<["password" := "p"]>
    (<["address" := "localhost"]> (<["db_name" := "testdb"]> ∅)))).

Definition mssql_args : gmap string string :=
  <["db_type" := "mssql+pyodbc"]> (<["driver" := "ODBC Driver 17"]>
    (<["address" := "host"]> (<["db_name" := "db"]> (<["user" := "u"]>
      (<["password" := "p"]> ∅))))).

(** A freshly constructed instance: no [engine] attribute yet. *)
Definition fresh : Connector :=
  {| logger := None; engine_args := postgres_args;
     connection_string := "postgresql://u:p@localhost/testdb";
     engine := None |}.

Definition the_engine : Engine :=
  {| url := "postgresql://u:p@localhost/testdb"; fast_executemany_hook := true |}.

(** The same instance after [_init_engine()]. *)
Definition ready : Connector := set_engine the_engine fresh.

Definition start (c : Connector) (d : tables) : state backend :=
  @mkState backend c d [].

(** Ten rows of one column. *)
Definition df10 : DataFrame :=
  {| columns := ["x"];
     rows := map (fun i => [VInt (Z.of_nat i)]) (seq 0 10) |}.

(** The initialised instance with a logger. *)
Definition logged : Connector :=
  {| logger := Some (LoggerHandle "connectors"); engine_args := postgres_args;
     connection_string := "postgresql://u:p@localhost/testdb";
     engine := Some the_engine |}.

(** A database holding the ten rows as table [t] and a table [e]
    without rows. *)
Definition two_tables : tables :=
  <["t" := df10]> (<["e" := {| columns := ["x"]; rows := [] |}]> ∅).

(** The initialised instance in front of an empty database. *)
Definition s0 : state backend := start ready ∅.

(** Two rows of ten columns: more cells in a row than a small
    [chunksize]. *)
Definition wide : DataFrame :=
  {| columns := map (fun i => String (ascii_of_nat (97 + i)) EmptyString) (seq 0 10);
     rows := [replicate 10 (VInt 0); replicate 10 (VInt 1)] |}.

(** Six rows of one column, the fourth holding a null. *)
Definition with_null : DataFrame :=
  {| columns := ["x"];
     rows := [[VInt 0]; [VInt 1]; [VInt 2]; [VNone]; [VInt 4]; [VInt 5]] |}.

Definition has_null (df : DataFrame) : bool :=
  existsb (existsb (fun v => match v with VNone => true | _ => false end)) (rows df).

(** The same backend with a NOT NULL constraint on every column. *)
Definition strict_to_sql (name : string) (df : DataFrame) (con : Engine)
  (kw : kwargs) (d : tables) : result unit * tables :=
  if has_null df then (Raise (BackendError "null value violates not-null constraint"), d)
  else demo_to_sql name df con kw d.

Definition strict_backend : Backend :=
  {| db := tables;
     create_engine := fun _ d => (Ok tt, d);
     to_sql := strict_to_sql;
     read_sql_table := demo_read_sql_table;
     read_sql := fun _ _ d => (Ok empty_frame, d);
     read_sql_query := fun _ _ d => (Ok empty_frame, d);
     connect := fun _ d => (Ok 1%nat, d);
     execute := demo_execute;
     close := fun _ d => (Ok tt, d) |}.

(** A cursor that yields the table as one chunk and raises [e] when the
    next chunk is asked for: a connection lost, or bytes that do not
    decode. *)
Definition lossy_read_sql_table (e : exn) (name : string) (con : Engine)
  (kw : kwargs) (d : tables) : result Pd.generator * tables :=
  match d !! name with
  | None => (Raise (ValueError "Table not found"), d)
  | Some df => (Ok (Pd.Yield df (Pd.Fail e)), d)
  end.

(** A cursor whose first fetch raises [e]. *)
Definition broken_read_sql_table (e : exn) (name : string) (con : Engine)
  (kw : kwargs) (d : tables) : result Pd.generator * tables :=
  match d !! name with
  | None => (Raise (ValueError "Table not found"), d)
  | Some _ => (Ok (Pd.Fail e), d)
  end.

Definition broken_backend (e : exn) : Backend :=
  {| db := tables;
     create_engine := fun _ d => (Ok tt, d);
     to_sql := demo_to_sql;
     read_sql_table := broken_read_sql_table e;
     read_sql := fun _ _ d => (Ok empty_frame, d);
     read_sql_query := fun _ _ d => (Ok empty_frame, d);
     connect := fun _ d => (Ok 1%nat, d);
     execute := demo_execute;
     close := fun _ d => (Ok tt, d) |}.

Definition lossy_backend (e : exn) : Backend :=
  {| db := tables;
     create_engine := fun _ d => (Ok tt, d);
     to_sql := demo_to_sql;
     read_sql_table := lossy_read_sql_table e;
     read_sql := fun _ _ d => (Ok empty_frame, d);
     read_sql_query := fun _ _ d => (Ok empty_frame, d);
     connect := fun _ d => (Ok 1%nat, d);
     execute := demo_execute;
     close := fun _ d => (Ok tt, d) |}.

End Demo.


(** ** Helper notions for the statements *)

(** The reading of "equal-sized chunks, the last of which may be smaller":
    every chunk but the last has the rows of the first, the last has no
    more. *)
Definition equal_sized_but_last (chunks : list DataFrame) : Prop :=
  forall i c c0, chunks !! i = Some c -> chunks !! 0%nat = Some c0 ->
    if decide (S i = length chunks)
    then (length (rows c) <= length (rows c0))%nat
    else length (rows c) = length (rows c0).

(** The sizes [array_split] gives its sections, without the leading 0. *)
Definition sizes_of (Ntotal Nsections : nat) : list nat :=
  (replicate (Ntotal mod Nsections) (Ntotal / Nsections + 1)%nat
   ++ replicate (Nsections - Ntotal mod Nsections) (Ntotal / Nsections)%nat)%list.

Definition with_rows (ary : DataFrame) (r : list (list value)) : DataFrame :=
  {| columns := columns ary; rows := r |}.

(** C1 as it is stated, for one call of [set_df] with a [chunksize]: the
    [to_sql] calls issued are ceil(size / chunksize) many, the first with
    the caller's [if_exists] and the others with ['append'], and the
    frames written, joined in write order, are the rows of the table. *)
Definition split_writes_as_stated {B : Backend} (table_name : string)
  (df : DataFrame) (if_exists : value) (chunksize : Z) (kw : kwargs)
  (s : state B) : Prop :=
  exists writes,
    writes_of (trace (set_df table_name df if_exists (Some chunksize) kw s).2)
    = (writes_of (trace s) ++ writes)%list /\
    Z.of_nat (length writes) = ceil_div (size df) chunksize /\
    (forall i n d k, writes !! i = Some (n, d, k) ->
       k !! "if_exists"
       = Some (match i with O => if_exists | S _ => VStr "append" end)) /\
    List.concat (map (fun w => rows w.1.2) writes) = rows df.

(** The backend raises on no write. *)
Definition accepts_writes (B : Backend) : Prop :=
  forall name df con kw d, fst (to_sql B name df con kw d) = Ok tt.

(** The [to_sql] calls a split write is to issue, in order. *)
Definition planned_writes (table_name : string) (chunks : list DataFrame)
  (if_exists : value) (kw : kwargs) : list (string * DataFrame * kwargs) :=
  match chunks with
  | [] => []
  | c0 :: rest =>
      (table_name, c0, <["if_exists" := if_exists]> kw)
      :: map (fun c => (table_name, c, <["if_exists" := VStr "append"]> kw)) rest
  end.

(** The two descriptor formats, written out. *)
Definition standard_descriptor (db_type user password address db_name : string)
  : string :=
  db_type +:+ "://" +:+ user +:+ ":" +:+ password +:+ "@" +:+ address
          +:+ "/" +:+ db_name.

Definition odbc_inner (driver address db_name user password : string) : string :=
  "DRIVER=" +:+ driver +:+ ";SERVER=" +:+ address +:+ ";DATABASE=" +:+ db_name
            +:+ ";UID=" +:+ user +:+ ";PWD=" +:+ password.

Definition odbc_descriptor (db_type driver address db_name user password : string)
  : string :=
  db_type +:+ ":///?odbc_connect="
          +:+ Str.quote_plus (odbc_inner driver address db_name user password).

(** The state a read leaves: the call to [read_sql_table] and, on the
    "no data" path, the warning of a configured logger. *)
Definition after_read {B : Backend} (s : state B) (d : db B)
  (table_name : string) (kw : kwargs) (warned : bool) : state B :=
  mkState (self s) d
    (trace s ++ [ReadSqlTable table_name kw]
             ++ (if (warned && has_logger (self s))%bool
                 then [LogWarning (NoObjects table_name)] else []))%list.

(** [p] holds of every character of [s]. *)
Fixpoint string_forall (p : ascii -> bool) (s : string) : bool :=
  match s with
  | EmptyString => true
  | String c s' => (p c && string_forall p s')%bool
  end.

(** The characters [quote_plus] writes: the always safe ones, the escape
    sign and the plus that stands for a space. *)
Definition quoted_char (c : ascii) : bool :=
  (Str.always_safe c || Ascii.eqb c "%" || Ascii.eqb c "+")%bool.

(** The value of a hexadecimal digit, upper case as [quote_plus] writes it. *)
Definition unhex (c : ascii) : N :=
  if Str.in_range 48 57 c then (N_of_ascii c - 48)%N else (N_of_ascii c - 55)%N.

(** Reads a quoted text back: a plus is a space, [%XX] is the byte XX.
    It is the inverse that shows [quote_plus] loses nothing. *)
Fixpoint decode_quoted (s : string) : string :=
  match s with
  | EmptyString => EmptyString
  | String c s' =>
      if Ascii.eqb c "%" then
        match s' with
        | String h (String l rest) =>
            String (ascii_of_N (unhex h * 16 + unhex l)) (decode_quoted rest)
        | _ => s
        end
      else String (if Ascii.eqb c "+" then " "%char else c) (decode_quoted s')
  end.

(** The keys every config must hold, in the order the constructor reads
    them, and the keys it reads at all. *)
Definition required_keys : list string :=
  ["db_type"; "user"; "password"; "address"; "db_name"].

Definition named_keys : list string := (required_keys ++ ["driver"; "conn"])%list.

Fixpoint first_missing (ks : list string) (m : gmap string string) : option string :=
  match ks with
  | [] => None
  | k :: ks' => match m !! k with None => Some k | Some _ => first_missing ks' m end
  end.

(** Two configs hold the same under each of the keys. *)
Definition agree_on (ks : list string) (m1 m2 : gmap string string) : Prop :=
  Forall (fun k => m1 !! k = m2 !! k) ks.

(** The descriptor of a construction, or the exception it raised. *)
Definition descriptor (r : result Connector) : result string :=
  match r with
  | Ok c => Ok (connection_string c)
  | Raise e => Raise e
  end.

(** The log records of a trace *)
Fixpoint logs_of (t : list event) : list event :=
  match t with
  | [] => []
  | LogInfo m :: t' => LogInfo m :: logs_of t'
  | LogWarning m :: t' => LogWarning m :: logs_of t'
  | _ :: t' => logs_of t'
  end.

(** The descriptors a trace created engines for *)
Fixpoint creations_of (t : list event) : list string :=
  match t with
  | [] => []
  | CreateEngine u :: t' => u :: creations_of t'
  | _ :: t' => creations_of t'
  end.

(** A cursor that yields the given chunks and then goes on as [rest]. *)
Definition chunks_then (dfs : list DataFrame) (rest : Pd.generator) : Pd.generator :=
  foldr Pd.Yield rest dfs.

(** [pd.concat] of a list of frames with common columns *)
Definition joined (df0 : DataFrame) (dfs : list DataFrame) : DataFrame :=
  {| columns := columns df0; rows := List.concat (map rows (df0 :: dfs)) |}.

(** From [s] to [s'] the instance is the same, nothing was logged and no
    engine was created. *)
Definition quiet {B : Backend} (s s' : state B) : Prop :=
  self s' = self s /\
  logs_of (trace s') = logs_of (trace s) /\
  creations_of (trace s') = creations_of (trace s).

(** * Properties *)

(** ** [numpy.array_split] *)

Section ArraySplit.

Lemma nth_cumsum_from (l : list nat) : forall a i,
  (i < length l)%nat ->
  nth i (Np.cumsum_from a l) 0%nat = (a + sum_list (take (S i) l))%nat.
Proof.
  induction l as [|x l IH]; intros a i Hi; simpl in *; [lia|].
  destruct i as [|i]; simpl.
  - lia.
  - rewrite IH by lia. simpl. lia.
Qed.

Lemma nth_div_points (sizes : list nat) i :
  (i <= length sizes)%nat ->
  nth i (Np.cumsum (0%nat :: sizes)) 0%nat = sum_list (take i sizes).
Proof.
  intros Hi. unfold Np.cumsum. simpl. destruct i as [|i]; [reflexivity|].
  rewrite nth_cumsum_from by lia. reflexivity.
Qed.

Lemma slices_reshape {A} (sizes : list nat) : forall (l : list A),
  map (fun i => take (sum_list (take (i + 1) sizes) - sum_list (take i sizes))
                     (drop (sum_list (take i sizes)) l))
      (seq 0 (length sizes))
  = reshape sizes l.
Proof.
  induction sizes as [|n sizes IH]; intros l; [reflexivity|].
  cbn [length seq map reshape]. f_equal.
  - simpl. f_equal. lia.
  - rewrite <- seq_shift, map_map, <- IH.
    apply map_ext. intros i. simpl.
    rewrite drop_drop. f_equal. lia.
Qed.

Lemma concat_reshape {A} (sizes : list nat) : forall (l : list A),
  List.concat (reshape sizes l) = take (sum_list sizes) l.
Proof.
  induction sizes as [|n sizes IH]; intros l; simpl.
  - by rewrite take_0.
  - rewrite IH. apply take_take_drop.
Qed.

Lemma lookup_reshape {A} (sizes : list nat) : forall (l : list A) i n,
  sizes !! i = Some n ->
  reshape sizes l !! i = Some (take n (drop (sum_list (take i sizes)) l)).
Proof.
  induction sizes as [|m sizes IH]; intros l i n Hi; [done|].
  destruct i as [|i]; simpl in *.
  - by inversion Hi.
  - rewrite (IH _ _ _ Hi), drop_drop. done.
Qed.

Lemma length_sizes_of n k : (0 < k)%nat -> length (sizes_of n k) = k.
Proof.
  intros Hk. unfold sizes_of.
  rewrite length_app, !length_replicate.
  pose proof (Nat.mod_upper_bound n k). lia.
Qed.

Lemma sum_sizes_of n k : (0 < k)%nat -> sum_list (sizes_of n k) = n.
Proof.
  intros Hk. unfold sizes_of.
  rewrite sum_list_with_app, !sum_list_replicate.
  pose proof (Nat.mod_upper_bound n k ltac:(lia)) as Hr.
  pose proof (Nat.div_mod_eq n k) as Hd.
  nia.
Qed.

Lemma lookup_sizes_of n k i : (i < k)%nat ->
  sizes_of n k !! i
  = Some (if decide (i < n mod k)%nat then (n / k + 1)%nat else (n / k)%nat).
Proof.
  intros Hi. unfold sizes_of.
  pose proof (Nat.mod_upper_bound n k ltac:(lia)) as Hr.
  case_decide.
  - rewrite lookup_app_l by (rewrite length_replicate; lia).
    by apply lookup_replicate_2.
  - rewrite lookup_app_r by (rewrite length_replicate; lia).
    rewrite length_replicate. apply lookup_replicate_2. lia.
Qed.

Lemma sum_take_sizes_of n k i : (i <= k)%nat -> (0 < k)%nat ->
  sum_list (take i (sizes_of n k)) = (i * (n / k) + min i (n mod k))%nat.
Proof.
  intros Hi Hk. unfold sizes_of.
  pose proof (Nat.mod_upper_bound n k ltac:(lia)) as Hr.
  rewrite take_app, !take_replicate, length_replicate.
  rewrite sum_list_with_app, !sum_list_replicate.
  destruct (Nat.le_ge_cases i (n mod k)); nia.
Qed.

(** [array_split] cuts the rows into consecutive runs of those sizes. *)
Lemma array_split_reshape (ary : DataFrame) (k : Z) :
  0 < k ->
  Np.array_split ary k
  = Ok (map (with_rows ary)
            (reshape (sizes_of (length (rows ary)) (Z.to_nat k)) (rows ary))).
Proof.
  intros Hk. unfold Np.array_split.
  destruct (Z.leb_spec k 0) as [?|_]; [lia|]. f_equal.
  unfold Np.section_sizes. change ([0%nat] ++ ?x)%list with (0%nat :: x).
  fold (sizes_of (length (rows ary)) (Z.to_nat k)).
  set (sizes := sizes_of _ _).
  assert (Hlen : length sizes = Z.to_nat k) by (apply length_sizes_of; lia).
  rewrite <- slices_reshape, map_map, <- Hlen.
  apply map_ext_in. intros i Hi. apply in_seq in Hi.
  rewrite !nth_div_points by lia. reflexivity.
Qed.

End ArraySplit.


(** ** [__split_df] *)

Section SplitDf.

Lemma ceil_div_pos a b : 0 < b -> 0 < a -> 0 < ceil_div a b.
Proof.
  intros Hb Ha. unfold ceil_div.
  assert (- a / b < 0) by (apply Z.div_lt_upper_bound; lia). lia.
Qed.

Lemma split_df_reshape (df : DataFrame) (chunksize : Z) :
  0 < chunksize -> chunksize < size df ->
  __split_df df chunksize
  = Ok (map (with_rows df)
          (reshape (sizes_of (length (rows df))
                      (Z.to_nat (ceil_div (size df) chunksize)))
             (rows df))).
Proof.
  intros Hc Hs. unfold __split_df.
  destruct (Z.eqb_spec chunksize 0) as [?|_]; [lia|].
  apply array_split_reshape, ceil_div_pos; lia.
Qed.

Lemma concat_rows_with_rows (df : DataFrame) (ls : list (list (list value))) :
  List.concat (map rows (map (with_rows df) ls)) = List.concat ls.
Proof. rewrite map_map. simpl. by rewrite map_id. Qed.

(** The chunks are as many as the ceiling says and cover the rows in
    their order. *)
Lemma split_df_cover (df : DataFrame) (chunksize : Z) :
  0 < chunksize -> chunksize < size df ->
  exists chunks,
    __split_df df chunksize = Ok chunks /\
    length chunks = Z.to_nat (ceil_div (size df) chunksize) /\
    (0 < length chunks)%nat /\
    List.concat (map rows chunks) = rows df.
Proof.
  intros Hc Hs. eexists. split; [by apply split_df_reshape|].
  assert (Hk : 0 < ceil_div (size df) chunksize) by (apply ceil_div_pos; lia).
  rewrite length_map, length_reshape, length_sizes_of by lia.
  split; [done|]. split; [lia|].
  rewrite concat_rows_with_rows, concat_reshape, sum_sizes_of by lia.
  by apply take_ge.
Qed.

(** C7, as the code has it: a split table is cut into
    k = ceil(size / chunksize) contiguous row chunks that cover the rows
    in their order; with n rows, the first n mod k chunks hold
    n / k + 1 rows and the others n / k rows, so the sizes differ by at
    most one and the larger chunks come first. *)
Theorem split_df_sections (df : DataFrame) (chunksize : Z) :
  0 < chunksize -> chunksize < size df ->
  let k := Z.to_nat (ceil_div (size df) chunksize) in
  let n := length (rows df) in
  exists chunks,
    __split_df df chunksize = Ok chunks /\
    length chunks = k /\
    List.concat (map rows chunks) = rows df /\
    forall i, (i < k)%nat ->
      let sz := if decide (i < n mod k)%nat then (n / k + 1)%nat else (n / k)%nat in
      exists c,
        chunks !! i = Some c /\
        columns c = columns df /\
        rows c = take sz (drop (i * (n / k) + min i (n mod k)) (rows df)) /\
        length (rows c) = sz.
Proof.
  intros Hc Hs k n.
  destruct (split_df_cover df chunksize Hc Hs) as (chunks & Hsplit & Hlen & Hpos & Hcat).
  exists chunks. repeat split; try done.
  intros i Hi sz.
  rewrite split_df_reshape in Hsplit by done. inversion Hsplit as [Hch].
  fold k n. fold k in Hlen. rewrite Hlen in Hpos.
  exists (with_rows df (take sz (drop (i * (n / k) + min i (n mod k)) (rows df)))).
  rewrite list_lookup_fmap.
  rewrite (lookup_reshape _ _ _ _ (lookup_sizes_of n k i Hi)).
  rewrite sum_take_sizes_of by lia. fold sz.
  repeat split; try done. simpl.
  rewrite length_take, length_drop. fold n.
  pose proof (Nat.mod_upper_bound n k ltac:(lia)) as Hr.
  pose proof (Nat.div_mod_eq n k) as Hd.
  subst sz. case_decide; nia.
Qed.

(** C7 as stated fails: ten rows of one column with chunksize 3 are cut
    into chunks of 3, 3, 2 and 2 rows, so a chunk that is not the last
    is smaller than the first. *)
Lemma split_df_not_equal_sized :
  3 < size Demo.df10 /\
  exists chunks,
    __split_df Demo.df10 3 = Ok chunks /\
    map (fun c => length (rows c)) chunks = [3; 3; 2; 2]%nat /\
    ~ equal_sized_but_last chunks.
Proof.
  split; [reflexivity|].
  eexists. split; [vm_compute; reflexivity|]. split; [reflexivity|].
  intros H.
  specialize (H 2%nat _ _ eq_refl eq_refl). simpl in H. discriminate.
Qed.

Lemma split_df_sections_witness :
  0 < 3 /\ 3 < size Demo.df10 /\
  exists chunks,
    __split_df Demo.df10 3 = Ok chunks /\
    length chunks = 4%nat /\
    List.concat (map rows chunks) = rows Demo.df10.
Proof.
  split; [lia|]. split; [reflexivity|].
  destruct (split_df_sections Demo.df10 3) as (chunks & H1 & H2 & H3 & _);
    [lia | reflexivity |].
  exists chunks. repeat split; assumption.
Defined.

End SplitDf.

(** ** Writing: [__write_df], [__write_split_df], [set_df] *)

Section Writing.

Context {B : Backend}.
Implicit Types (s : state B) (kw : kwargs) (df : DataFrame).

Lemma writes_of_app (t1 t2 : list event) :
  writes_of (t1 ++ t2) = (writes_of t1 ++ writes_of t2)%list.
Proof.
  induction t1 as [|ev t1 IH]; [reflexivity|].
  destruct ev; simpl; rewrite IH; reflexivity.
Qed.

Lemma writes_of_ToSql table_name kw (dfs : list DataFrame) :
  writes_of (map (fun d => ToSql table_name d kw) dfs)
  = map (fun d => (table_name, d, kw)) dfs.
Proof. induction dfs as [|d dfs IH]; simpl; [|rewrite IH]; reflexivity. Qed.

(** One write: the call is issued whatever the backend answers. *)
Lemma write_df_run table_name df kw s con :
  engine (self s) = Some con ->
  __write_df table_name df kw s
  = (match fst (to_sql B table_name df con kw (store s)) with
     | Ok _ => Ok true
     | Raise e => Raise e
     end,
     mkState (self s) (snd (to_sql B table_name df con kw (store s)))
             (trace s ++ [ToSql table_name df kw])).
Proof.
  intros He. unfold __write_df, bind, getattr_engine, emit, call, ret.
  rewrite He. simpl.
  destruct (to_sql B table_name df con kw (store s)) as [[[]|e] d]; reflexivity.
Qed.

Lemma write_df_no_engine table_name df kw s :
  engine (self s) = None ->
  __write_df table_name df kw s = (Raise (AttributeError "engine"), s).
Proof.
  intros He. unfold __write_df, bind, getattr_engine. by rewrite He.
Qed.

(** The appending loop issues a prefix of its writes, all of them when
    it returns. *)
Lemma write_appending_run table_name kw (dfs : list DataFrame) :
  forall s con, engine (self s) = Some con ->
  exists r s' k,
    write_appending table_name dfs kw s = (r, s') /\
    self s' = self s /\
    trace s' = (trace s ++ map (fun d => ToSql table_name d (<["if_exists" := VStr "append"]> kw))
                             (take k dfs))%list /\
    (k <= length dfs)%nat /\
    (is_Ok r = true -> k = length dfs) /\
    (accepts_writes B -> r = Ok tt).
Proof.
  induction dfs as [|d dfs IH]; intros s con He.
  - exists (Ok tt), s, 0%nat. simpl. rewrite app_nil_r. repeat split; auto.
  - cbn [write_appending]. unfold bind at 1.
    rewrite (write_df_run _ _ _ _ _ He).
    destruct (fst (to_sql B table_name d con _ (store s))) as [[]|e] eqn:Hw.
    + match goal with |- context [write_appending _ _ _ ?s1] =>
        destruct (IH s1 con He) as (r & s' & k & Hrun & Hself & Htr & Hk & Hok & Hacc)
      end.
      exists r, s', (S k). rewrite Hrun. simpl in *.
      rewrite Htr, <- app_assoc. repeat split; auto; lia.
    + eexists (Raise e), _, 1%nat. split; [reflexivity|]. simpl.
      repeat split; auto; try lia; try discriminate.
      intros Hacc. specialize (Hacc table_name d con
        (<["if_exists" := VStr "append"]> kw) (store s)). congruence.
Qed.

(** The split write issues a prefix of the planned writes, at least the
    first, and all of them when it returns. *)
Lemma write_split_df_run table_name (chunks : list DataFrame) if_exists kw s con :
  engine (self s) = Some con ->
  (0 < length chunks)%nat ->
  exists r s' k,
    __write_split_df table_name chunks (<["if_exists" := if_exists]> kw) s = (r, s') /\
    self s' = self s /\
    writes_of (trace s')
    = (writes_of (trace s) ++ take k (planned_writes table_name chunks if_exists kw))%list /\
    (1 <= k <= length chunks)%nat /\
    match r with
    | Ok b => b = true /\ k = length chunks
    | Raise _ => True
    end /\
    (accepts_writes B -> r = Ok true).
Proof.
  intros He Hpos. destruct chunks as [|c0 rest]; [simpl in Hpos; lia|].
  cbn [__write_split_df planned_writes]. unfold bind at 1.
  rewrite (write_df_run _ _ _ _ _ He).
  destruct (fst (to_sql B table_name c0 con _ (store s))) as [[]|e] eqn:Hw.
  - rewrite lookup_insert_eq, delete_insert_eq. unfold bind.
    match goal with |- context [write_appending _ _ _ ?s1] =>
      destruct (write_appending_run table_name (delete "if_exists" kw) rest s1 con He)
        as (r & s' & k & Hrun & Hself & Htr & Hk & Hok & Hacc)
    end.
    rewrite insert_delete_eq in Htr.
    rewrite Hrun. simpl in Htr.
    exists (match r with Ok _ => Ok true | Raise e => Raise e end), s', (S k).
    split; [by destruct r|]. split; [done|].
    split.
    { rewrite Htr, !writes_of_app, writes_of_ToSql. simpl.
      rewrite <- app_assoc, firstn_map. reflexivity. }
    split; [simpl; lia|].
    split.
    { destruct r; [|done]. split; [done|]. simpl. f_equal. by apply Hok. }
    intros HA. by rewrite (Hacc HA).
  - eexists (Raise e), _, 1%nat. split; [reflexivity|]. simpl.
    rewrite writes_of_app. simpl.
    repeat split; auto; try lia.
    intros Hacc. specialize (Hacc table_name c0 con
      (<["if_exists" := if_exists]> kw) (store s)). congruence.
Qed.

Lemma planned_writes_lookup table_name (chunks : list DataFrame) if_exists kw i n d k :
  planned_writes table_name chunks if_exists kw !! i = Some (n, d, k) ->
  n = table_name /\
  k = <["if_exists" := match i with O => if_exists | S _ => VStr "append" end]> kw /\
  chunks !! i = Some d.
Proof.
  destruct chunks as [|c0 rest]; [done|]. destruct i as [|i]; simpl.
  - intros [= <- <- <-]. done.
  - rewrite list_lookup_fmap. destruct (rest !! i) as [c|]; [|done].
    simpl. intros [= <- <- <-]. done.
Qed.

Lemma planned_writes_frames table_name (chunks : list DataFrame) if_exists kw :
  map (fun w => w.1.2) (planned_writes table_name chunks if_exists kw) = chunks.
Proof.
  destruct chunks as [|c0 rest]; [done|]. simpl. f_equal.
  rewrite map_map. simpl. apply map_id.
Qed.

Lemma length_planned_writes table_name (chunks : list DataFrame) if_exists kw :
  length (planned_writes table_name chunks if_exists kw) = length chunks.
Proof. by rewrite <- (planned_writes_frames table_name chunks if_exists kw) at 2;
       rewrite length_map. Qed.

(** The end of [set_df]: the log record changes neither the status nor
    the writes. *)
Lemma set_df_finish table_name df (m : M B bool) s r s1 :
  m s = (r, s1) ->
  exists s',
    (status <- m ;;
     me <- get_self ;;
     when (has_logger me) (emit (LogInfo (Wrote table_name (shape df)))) ;;;
     ret status) s = (r, s') /\
    self s' = self s1 /\ store s' = store s1 /\
    writes_of (trace s') = writes_of (trace s1).
Proof.
  intros Hm. unfold bind at 1. rewrite Hm. destruct r as [status|e].
  - unfold bind, get_self, when, emit, ret.
    destruct (has_logger (self s1)); eexists; (split; [reflexivity|]); simpl;
      rewrite ?writes_of_app, ?app_nil_r; done.
  - by exists s1.
Qed.

(** C1, as the code has it: with a positive [chunksize] below the cell
    count and no driver option named [dfs], [set_df] on an initialised
    instance cuts the table and writes the chunks one [to_sql] call each.
    The first call carries the caller's [if_exists], every later one
    ['append'], the other options pass through.  When [set_df] returns,
    the calls are ceil(size / chunksize) many and the frames written,
    joined in write order, are the rows of the table; when a write
    raises, the calls issued so far are a prefix of these.  A backend
    that raises on no write makes [set_df] return. *)
Theorem set_df_split_writes table_name df (if_exists : value) (chunksize : Z)
  kw s con :
  engine (self s) = Some con ->
  0 < chunksize -> chunksize < size df ->
  kw !! "dfs" = None ->
  exists r s' writes,
    set_df table_name df if_exists (Some chunksize) kw s = (r, s') /\
    writes_of (trace s') = (writes_of (trace s) ++ writes)%list /\
    (forall i n d k, writes !! i = Some (n, d, k) ->
       n = table_name /\
       k = <["if_exists" := match i with O => if_exists | S _ => VStr "append" end]> kw) /\
    (1 <= length writes <= Z.to_nat (ceil_div (size df) chunksize))%nat /\
    match r with
    | Ok status =>
        status = true /\
        length writes = Z.to_nat (ceil_div (size df) chunksize) /\
        List.concat (map (fun w => rows w.1.2) writes) = rows df
    | Raise _ => True
    end /\
    (accepts_writes B -> r = Ok true).
Proof.
  intros He Hc Hs Hdfs.
  destruct (split_df_cover df chunksize Hc Hs) as (chunks & Hsplit & Hlen & Hpos & Hcat).
  destruct (write_split_df_run table_name chunks if_exists kw s con He Hpos)
    as (r & s1 & k & Hrun & Hself & Htr & Hk & Hr & Hacc).
  unfold set_df. rewrite Hdfs.
  destruct (Z.ltb_spec chunksize (size df)) as [_|?]; [|lia].
  destruct (set_df_finish table_name df
              (dfs <- lift (__split_df df chunksize) ;;
               __write_split_df table_name dfs (<["if_exists" := if_exists]> kw))
              s r s1) as (s' & Hfin & _ & _ & Hw).
  { unfold bind, lift. rewrite Hsplit. exact Hrun. }
  exists r, s', (take k (planned_writes table_name chunks if_exists kw)).
  split; [exact Hfin|]. split; [by rewrite Hw|].
  split.
  { intros i n d kw' Hi. apply lookup_take_Some in Hi as [Hi _].
    apply planned_writes_lookup in Hi as (? & ? & _). done. }
  split.
  { rewrite length_take, length_planned_writes. lia. }
  split; [|exact Hacc].
  destruct r as [status|e]; [|done]. destruct Hr as [-> ->].
  rewrite take_ge by (rewrite length_planned_writes; lia).
  rewrite length_planned_writes.
  split; [done|]. split; [done|].
  rewrite <- Hcat. f_equal.
  rewrite <- (planned_writes_frames table_name chunks if_exists kw) at 2.
  by rewrite map_map.
Qed.

(** C2: with at most [chunksize] cells, or with no [chunksize], [set_df]
    issues exactly one [to_sql] call, for the whole table, and the call
    carries [if_exists='replace'] whatever mode the caller gave. *)
Theorem set_df_unsplit_replace table_name df (if_exists : value)
  (chunksize : option Z) kw s con :
  engine (self s) = Some con ->
  match chunksize with None => True | Some c => size df <= c end ->
  exists r s',
    set_df table_name df if_exists chunksize kw s = (r, s') /\
    writes_of (trace s')
    = (writes_of (trace s)
       ++ [(table_name, df, <["if_exists" := VStr "replace"]> kw)])%list /\
    match r with
    | Ok status => status = true
    | Raise e =>
        fst (to_sql B table_name df con (<["if_exists" := VStr "replace"]> kw) (store s))
        = Raise e
    end.
Proof.
  intros He Hc.
  set (m := @__write_df B table_name df (<["if_exists" := VStr "replace"]> kw)).
  assert (Hbody : set_df table_name df if_exists chunksize kw
                  = (status <- m ;;
                     me <- get_self ;;
                     when (has_logger me) (emit (LogInfo (Wrote table_name (shape df)))) ;;;
                     ret status)).
  { unfold set_df. destruct chunksize as [c|]; [|reflexivity].
    destruct (Z.ltb_spec c (size df)); [lia|reflexivity]. }
  rewrite Hbody.
  destruct (set_df_finish table_name df m s _ _ (write_df_run _ _ _ _ _ He))
    as (s' & Hfin & _ & _ & Hw).
  eexists _, s'. split; [exact Hfin|].
  split.
  { rewrite Hw. simpl. rewrite writes_of_app. reflexivity. }
  destruct (fst (to_sql B table_name df con _ (store s))); done.
Qed.

Lemma write_df_status table_name df kw s status s' :
  __write_df table_name df kw s = (Ok status, s') -> status = true.
Proof.
  unfold __write_df, bind, getattr_engine, emit, call, ret.
  destruct (engine (self s)) as [con|]; [|discriminate]. simpl.
  destruct (to_sql B _ _ _ _ _) as [[[]|err] d]; congruence.
Qed.

Lemma write_split_df_status table_name (dfs : list DataFrame) kw s status s' :
  __write_split_df table_name dfs kw s = (Ok status, s') -> status = true.
Proof.
  destruct dfs as [|df0 dfs]; [discriminate|].
  cbn [__write_split_df]. unfold bind, raise, ret.
  destruct (__write_df table_name df0 kw s) as [[b|e] s1]; [|discriminate].
  destruct (kw !! "if_exists"); [|discriminate].
  destruct (write_appending _ _ _ s1) as [[[]|e] s2]; congruence.
Qed.

(** C8: whenever [set_df] returns, the status it returns is [True];
    failure shows as an exception only. *)
Theorem set_df_returns_true table_name df (if_exists : value)
  (chunksize : option Z) kw s status s' :
  set_df table_name df if_exists chunksize kw s = (Ok status, s') ->
  status = true.
Proof.
  unfold set_df. unfold bind at 1.
  match goal with |- context [match ?body s with _ => _ end] =>
    destruct (body s) as [[b|e] s1] eqn:Hbody
  end; [|discriminate].
  assert (b = true) as ->.
  { destruct chunksize as [c|]; [destruct (c <? size df)%Z|].
    - unfold bind, lift in Hbody. destruct (__split_df df c); [|discriminate].
      destruct (kw !! "dfs"); [discriminate|].
      by eapply write_split_df_status.
    - by eapply write_df_status.
    - by eapply write_df_status. }
  unfold bind, get_self, when, emit, ret.
  destruct (has_logger (self s1)); congruence.
Qed.

End Writing.

(** The theorems above at work on the in-memory backend: ten rows of one
    column, written with [chunksize] 3 and with [chunksize] 10. *)
Section WritingExamples.

Import Demo.

Lemma set_df_split_writes_witness :
  engine (self s0) = Some Demo.the_engine /\
  0 < 3 /\ 3 < size Demo.df10 /\ (∅ : kwargs) !! "dfs" = None /\
  (exists r s' writes,
     set_df "t" Demo.df10 (VStr "fail") (Some 3) ∅ s0 = (r, s') /\
     writes_of (trace s') = (writes_of (trace s0) ++ writes)%list /\
     (1 <= length writes <= 4)%nat) /\
  fst (set_df "t" Demo.df10 (VStr "fail") (Some 3) ∅ s0) = Ok true /\
  map (fun w => (length (rows w.1.2), w.2 !! "if_exists"))
      (writes_of (trace (snd (set_df "t" Demo.df10 (VStr "fail") (Some 3) ∅ s0))))
  = [(3%nat, Some (VStr "fail")); (3%nat, Some (VStr "append"));
     (2%nat, Some (VStr "append")); (2%nat, Some (VStr "append"))].
Proof.
  split; [reflexivity|]. split; [lia|]. split; [reflexivity|]. split; [reflexivity|].
  split; [|split; vm_compute; reflexivity].
  destruct (@set_df_split_writes Demo.backend "t" Demo.df10 (VStr "fail") 3 ∅
              s0 Demo.the_engine)
    as (r & s' & writes & H1 & H2 & _ & H3 & _);
    [reflexivity | lia | reflexivity | reflexivity |].
  exists r, s', writes. split; [exact H1|]. split; [exact H2|]. exact H3.
Defined.

(** C1 as stated fails: the ten rows have more cells than a [chunksize]
    of 0 or of -5, and than a [chunksize] of 3 passed with a driver
    option named [dfs]; in each case [set_df] raises before any write, on
    a backend that would accept the writes, so nothing of the table is
    written. *)
Lemma set_df_split_writes_not_as_stated :
  (0 < size Demo.df10 /\
   set_df "t" Demo.df10 (VStr "replace") (Some 0) ∅ s0 = (Raise ArithmeticError, s0) /\
   ~ split_writes_as_stated "t" Demo.df10 (VStr "replace") 0 ∅ s0) /\
  (-5 < size Demo.df10 /\
   set_df "t" Demo.df10 (VStr "replace") (Some (-5)) ∅ s0
   = (Raise (ValueError "number sections must be larger than 0."), s0) /\
   ~ split_writes_as_stated "t" Demo.df10 (VStr "replace") (-5) ∅ s0) /\
  (3 < size Demo.df10 /\
   set_df "t" Demo.df10 (VStr "replace") (Some 3) {["dfs" := VInt 1]} s0
   = (Raise (TypeError "__write_split_df() got multiple values for argument 'dfs'"), s0) /\
   ~ split_writes_as_stated "t" Demo.df10 (VStr "replace") 3 {["dfs" := VInt 1]} s0).
Proof.
  repeat split; try reflexivity.
  all: intros (writes & Hw & _ & _ & Hcat); vm_compute in Hw; subst writes;
    discriminate Hcat.
Qed.

Lemma set_df_unsplit_replace_witness :
  engine (self s0) = Some Demo.the_engine /\
  size Demo.df10 <= 10 /\
  exists r s',
    set_df "t" Demo.df10 (VStr "fail") (Some 10) ∅ s0 = (r, s') /\
    writes_of (trace s')
    = (writes_of (trace s0)
       ++ [("t", Demo.df10, <["if_exists" := VStr "replace"]> ∅)])%list.
Proof.
  split; [reflexivity|]. split; [vm_compute; discriminate|].
  destruct (@set_df_unsplit_replace Demo.backend "t" Demo.df10 (VStr "fail")
              (Some 10) ∅ s0 Demo.the_engine)
    as (r & s' & H1 & H2 & _); [reflexivity | vm_compute; discriminate |].
  exists r, s'. split; [exact H1 | exact H2].
Defined.

Lemma set_df_returns_true_witness :
  exists s',
    set_df "t" Demo.df10 (VStr "fail") (Some 3) ∅ s0 = (Ok true, s') /\
    true = true.
Proof.
  eexists. split; [vm_compute; reflexivity|].
  eapply (@set_df_returns_true Demo.backend "t" Demo.df10 (VStr "fail") (Some 3) ∅ s0).
  vm_compute. reflexivity.
Defined.

End WritingExamples.

(** ** Construction: the connection descriptor *)

Section Construction.

Lemma string_app_nil_r (s : string) : s +:+ "" = s.
Proof.
  induction s as [|c s IH]; [reflexivity|].
  change (String c (s +:+ "") = String c s). by rewrite IH.
Qed.

Lemma string_app_assoc (a b c : string) : (a +:+ b) +:+ c = a +:+ (b +:+ c).
Proof.
  induction a as [|x a IH]; [reflexivity|].
  change (String x ((a +:+ b) +:+ c) = String x (a +:+ (b +:+ c))). by rewrite IH.
Qed.

Lemma parse_standard :
  Str.parse "{db_type}://{user}:{password}@{address}"
  = [Str.Field "db_type"; Str.Lit "://"; Str.Field "user"; Str.Lit ":";
     Str.Field "password"; Str.Lit "@"; Str.Field "address"].
Proof. reflexivity. Qed.

Lemma parse_db_name : Str.parse "/{db_name}" = [Str.Lit "/"; Str.Field "db_name"].
Proof. reflexivity. Qed.

Lemma parse_inner :
  Str.parse "DRIVER={driver};SERVER={address};DATABASE={db_name};UID={user};PWD={password}"
  = [Str.Lit "DRIVER="; Str.Field "driver"; Str.Lit ";SERVER="; Str.Field "address";
     Str.Lit ";DATABASE="; Str.Field "db_name"; Str.Lit ";UID="; Str.Field "user";
     Str.Lit ";PWD="; Str.Field "password"].
Proof. reflexivity. Qed.

Lemma parse_odbc :
  Str.parse "{db_type}:///?odbc_connect={conn}"
  = [Str.Field "db_type"; Str.Lit ":///?odbc_connect="; Str.Field "conn"].
Proof. reflexivity. Qed.

Section Config.

Variables (engine_args : gmap string string) (lg : option Logger).
Variables (db_type user password address db_name : string).
Hypothesis Hdb_type : engine_args !! "db_type" = Some db_type.
Hypothesis Huser : engine_args !! "user" = Some user.
Hypothesis Hpassword : engine_args !! "password" = Some password.
Hypothesis Haddress : engine_args !! "address" = Some address.
Hypothesis Hdb_name : engine_args !! "db_name" = Some db_name.

Lemma format_standard :
  Str.format "{db_type}://{user}:{password}@{address}" engine_args
  = Ok (db_type +:+ "://" +:+ user +:+ ":" +:+ password +:+ "@" +:+ address).
Proof.
  unfold Str.format. rewrite parse_standard. cbn [Str.format_pieces].
  rewrite Hdb_type, Huser, Hpassword, Haddress. cbn [Str.format_pieces].
  by rewrite string_app_nil_r.
Qed.

Lemma format_db_name :
  Str.format "/{db_name}" engine_args = Ok ("/" +:+ db_name).
Proof.
  unfold Str.format. rewrite parse_db_name. cbn [Str.format_pieces].
  rewrite Hdb_name. cbn [Str.format_pieces]. by rewrite string_app_nil_r.
Qed.

Lemma format_inner_driver driver :
  engine_args !! "driver" = Some driver ->
  Str.format "DRIVER={driver};SERVER={address};DATABASE={db_name};UID={user};PWD={password}" engine_args
  = Ok (odbc_inner driver address db_name user password).
Proof.
  intros Hdriver. unfold Str.format. rewrite parse_inner. cbn [Str.format_pieces].
  rewrite Hdriver, Huser, Hpassword, Haddress, Hdb_name. cbn [Str.format_pieces].
  unfold odbc_inner. by rewrite string_app_nil_r.
Qed.

Lemma format_inner_no_driver :
  engine_args !! "driver" = None ->
  Str.format "DRIVER={driver};SERVER={address};DATABASE={db_name};UID={user};PWD={password}" engine_args
  = Raise (KeyError "driver").
Proof.
  intros Hdriver. unfold Str.format. rewrite parse_inner. cbn [Str.format_pieces].
  by rewrite Hdriver.
Qed.

Lemma format_odbc conn :
  Str.format "{db_type}:///?odbc_connect={conn}" (<["conn" := conn]> engine_args)
  = Ok (db_type +:+ ":///?odbc_connect=" +:+ conn).
Proof.
  unfold Str.format. rewrite parse_odbc. cbn [Str.format_pieces].
  rewrite lookup_insert_ne by done. rewrite Hdb_type, lookup_insert_eq.
  cbn [Str.format_pieces]. by rewrite string_app_nil_r.
Qed.

(** Without ['pyodbc'] in [db_type]: the standard descriptor. *)
Lemma init_standard :
  Str.contains "pyodbc" db_type = false ->
  __init__ engine_args lg
  = Ok (mkConnector lg engine_args
          (standard_descriptor db_type user password address db_name) None).
Proof.
  intros Hc. unfold __init__.
  rewrite format_standard, Hdb_type, format_db_name, Hc.
  unfold set_connection_string, standard_descriptor. simpl.
  by rewrite !string_app_assoc.
Qed.

(** With ['pyodbc'] in [db_type]: the ODBC descriptor, or an exception. *)
Lemma init_odbc :
  Str.contains "pyodbc" db_type = true ->
  __init__ engine_args lg
  = match engine_args !! "driver", engine_args !! "conn" with
    | Some driver, None =>
        Ok (mkConnector lg engine_args
              (odbc_descriptor db_type driver address db_name user password) None)
    | Some _, Some _ =>
        Raise (TypeError "str.format() got multiple values for keyword argument 'conn'")
    | None, _ => Raise (KeyError "driver")
    end.
Proof.
  intros Hc. unfold __init__.
  rewrite format_standard, Hdb_type, format_db_name, Hc.
  destruct (engine_args !! "driver") as [driver|] eqn:Hdriver.
  - rewrite (format_inner_driver _ Hdriver).
    destruct (engine_args !! "conn"); [reflexivity|].
    by rewrite format_odbc.
  - by rewrite (format_inner_no_driver Hdriver).
Qed.

End Config.

(** C3: the descriptor is a function of the config.  The PostgreSQL
    config of the example gives ["postgresql://u:p@localhost/testdb"];
    an ODBC-style config gives its [db_type], [":///?odbc_connect="] and
    the [quote_plus] encoding of
    [DRIVER=..;SERVER=..;DATABASE=..;UID=..;PWD=..]. *)
Theorem init_builds_descriptor :
  (forall lg,
     __init__ Demo.postgres_args lg
     = Ok (mkConnector lg Demo.postgres_args
             "postgresql://u:p@localhost/testdb" None)) /\
  (forall engine_args lg db_type driver address db_name user password,
     engine_args !! "db_type" = Some db_type ->
     engine_args !! "driver" = Some driver ->
     engine_args !! "address" = Some address ->
     engine_args !! "db_name" = Some db_name ->
     engine_args !! "user" = Some user ->
     engine_args !! "password" = Some password ->
     engine_args !! "conn" = None ->
     Str.contains "pyodbc" db_type = true ->
     __init__ engine_args lg
     = Ok (mkConnector lg engine_args
             (db_type +:+ ":///?odbc_connect="
                +:+ Str.quote_plus
                      ("DRIVER=" +:+ driver +:+ ";SERVER=" +:+ address
                         +:+ ";DATABASE=" +:+ db_name +:+ ";UID=" +:+ user
                         +:+ ";PWD=" +:+ password))
             None)).
Proof.
  split.
  - intros lg.
    by rewrite (init_standard Demo.postgres_args lg
                  "postgresql" "u" "p" "localhost" "testdb").
  - intros engine_args lg db_type driver address db_name user password
      Ht Hd Ha Hn Hu Hp Hconn Hc.
    rewrite (init_odbc engine_args lg db_type user password address db_name)
      by assumption.
    by rewrite Hd, Hconn.
Qed.

Lemma init_builds_descriptor_witness :
  __init__ Demo.mssql_args None
  = Ok (mkConnector None Demo.mssql_args
          ("mssql+pyodbc:///?odbc_connect="
             +:+ Str.quote_plus "DRIVER=ODBC Driver 17;SERVER=host;DATABASE=db;UID=u;PWD=p")
          None) /\
  Str.quote_plus "DRIVER=ODBC Driver 17;SERVER=host;DATABASE=db;UID=u;PWD=p"
  = "DRIVER%3DODBC+Driver+17%3BSERVER%3Dhost%3BDATABASE%3Ddb%3BUID%3Du%3BPWD%3Dp".
Proof.
  split; [|reflexivity].
  exact (proj2 init_builds_descriptor Demo.mssql_args None
           "mssql+pyodbc" "ODBC Driver 17" "host" "db" "u" "p"
           eq_refl eq_refl eq_refl eq_refl eq_refl eq_refl eq_refl eq_refl).
Defined.

(** C10: with the five required keys present, the ODBC descriptor is
    chosen exactly when ['pyodbc'] occurs in [db_type].  Without it the
    standard descriptor is built whatever the config holds under
    ['driver'], also nothing; with it the ['driver'] key is read. *)
Theorem init_descriptor_selection engine_args lg
  db_type user password address db_name :
  engine_args !! "db_type" = Some db_type ->
  engine_args !! "user" = Some user ->
  engine_args !! "password" = Some password ->
  engine_args !! "address" = Some address ->
  engine_args !! "db_name" = Some db_name ->
  (Str.contains "pyodbc" db_type = false ->
     __init__ engine_args lg
     = Ok (mkConnector lg engine_args
             (db_type +:+ "://" +:+ user +:+ ":" +:+ password +:+ "@"
                +:+ address +:+ "/" +:+ db_name) None) /\
     __init__ (delete "driver" engine_args) lg
     = Ok (mkConnector lg (delete "driver" engine_args)
             (db_type +:+ "://" +:+ user +:+ ":" +:+ password +:+ "@"
                +:+ address +:+ "/" +:+ db_name) None)) /\
  (Str.contains "pyodbc" db_type = true ->
     __init__ engine_args lg
     = match engine_args !! "driver", engine_args !! "conn" with
       | Some driver, None =>
           Ok (mkConnector lg engine_args
                 (db_type +:+ ":///?odbc_connect="
                    +:+ Str.quote_plus
                          ("DRIVER=" +:+ driver +:+ ";SERVER=" +:+ address
                             +:+ ";DATABASE=" +:+ db_name +:+ ";UID=" +:+ user
                             +:+ ";PWD=" +:+ password))
                 None)
       | Some _, Some _ =>
           Raise (TypeError "str.format() got multiple values for keyword argument 'conn'")
       | None, _ => Raise (KeyError "driver")
       end).
Proof.
  intros Ht Hu Hp Ha Hn. split; intros Hc.
  - split.
    + by apply init_standard.
    + apply init_standard; try done; by rewrite lookup_delete_ne.
  - by apply init_odbc.
Qed.

Lemma init_descriptor_selection_witness :
  Str.contains "pyodbc" "postgresql" = false /\
  __init__ Demo.postgres_args None
  = Ok (mkConnector None Demo.postgres_args
          "postgresql://u:p@localhost/testdb" None) /\
  Demo.postgres_args !! "driver" = None.
Proof.
  split; [reflexivity|]. split; [|reflexivity].
  exact (proj1 (proj1 (init_descriptor_selection Demo.postgres_args None
                         "postgresql" "u" "p" "localhost" "testdb"
                         eq_refl eq_refl eq_refl eq_refl eq_refl) eq_refl)).
Defined.

End Construction.

(** ** Reading: [get_df] *)

Section Reading.

Context {B : Backend}.
Implicit Types (s : state B) (kw : kwargs).

Local Ltac trace_eq :=
  try reflexivity;
  do 2 f_equal; rewrite <- ?app_assoc, ?app_nil_r; simpl; reflexivity.

(** What [get_df] does once the cursor is open. *)
Lemma get_df_run table_name chunk_count kw s con r d :
  engine (self s) = Some con ->
  read_sql_table B table_name con (with_default_chunksize kw) (store s) = (r, d) ->
  get_df table_name chunk_count kw s
  = match r with
    | Raise e => (Raise e, after_read s d table_name (with_default_chunksize kw) false)
    | Ok dfs =>
        match match Pd.islice dfs chunk_count with
              | Ok sliced => Pd.concat sliced
              | Raise e => Raise e
              end with
        | Ok df =>
            (Ok (Some df),
             mkState (self s) d
               (trace s ++ [ReadSqlTable table_name (with_default_chunksize kw)]
                  ++ (if has_logger (self s)
                      then [LogInfo (Fetched table_name (shape df))] else []))%list)
        | Raise e =>
            if is_ValueError e
            then (Ok None, after_read s d table_name (with_default_chunksize kw) true)
            else (Raise e, after_read s d table_name (with_default_chunksize kw) false)
        end
    end.
Proof.
  intros He Hread.
  unfold get_df, after_read, bind, getattr_engine, emit, call, get_self,
    try_except_ValueError, lift, when, ret.
  rewrite He. simpl. rewrite Hread. simpl.
  destruct r as [dfs|e]; [|reflexivity].
  destruct (Pd.islice dfs chunk_count) as [sliced|e]; simpl.
  - destruct (Pd.concat sliced) as [df|e]; simpl.
    + destruct (has_logger (self s)); simpl; trace_eq.
    + destruct (is_ValueError e); simpl; [|trace_eq].
      destruct (has_logger (self s)); simpl; trace_eq.
  - destruct (is_ValueError e); simpl; [|trace_eq].
    destruct (has_logger (self s)); simpl; trace_eq.
Qed.

Lemma islice_Stop chunk_count sliced :
  Pd.islice Pd.Stop chunk_count = Ok sliced -> sliced = Pd.Stop.
Proof.
  destruct chunk_count as [n|]; simpl; [|congruence].
  destruct (n <? 0)%Z; [discriminate|].
  destruct (Pd.sys_maxsize <? n)%Z; [discriminate|].
  destruct (Z.to_nat n); simpl; congruence.
Qed.

Lemma islice_raises (g : Pd.generator) chunk_count e :
  Pd.islice g chunk_count = Raise e -> is_ValueError e = true.
Proof.
  destruct chunk_count as [n|]; simpl; [|discriminate].
  destruct (n <? 0)%Z; [by intros [= <-]|].
  destruct (Pd.sys_maxsize <? n)%Z; [by intros [= <-]|discriminate].
Qed.

Lemma islice_Fail e chunk_count sliced :
  Pd.islice (Pd.Fail e) chunk_count = Ok sliced ->
  sliced = Pd.Stop \/ sliced = Pd.Fail e.
Proof.
  destruct chunk_count as [n|]; simpl; [|intros [= <-]; by right].
  destruct (n <? 0)%Z; [discriminate|].
  destruct (Pd.sys_maxsize <? n)%Z; [discriminate|].
  destruct (Z.to_nat n); simpl; intros [= <-]; auto.
Qed.

(** The outcomes of a read.  A chunked read that yields no chunk makes
    [get_df] return [None], with a warning when a logger is configured.
    An exception from opening the read, and an exception other than a
    [ValueError] from fetching a chunk, leave [get_df] as they are. *)
Lemma get_df_read_outcomes table_name chunk_count kw s con :
  engine (self s) = Some con ->
  (forall d,
     read_sql_table B table_name con (with_default_chunksize kw) (store s)
     = (Ok Pd.Stop, d) ->
     get_df table_name chunk_count kw s
     = (Ok None, after_read s d table_name (with_default_chunksize kw) true)) /\
  (forall e d,
     read_sql_table B table_name con (with_default_chunksize kw) (store s)
     = (Raise e, d) ->
     get_df table_name chunk_count kw s
     = (Raise e, after_read s d table_name (with_default_chunksize kw) false)) /\
  (forall dfs sliced e d,
     read_sql_table B table_name con (with_default_chunksize kw) (store s)
     = (Ok dfs, d) ->
     Pd.islice dfs chunk_count = Ok sliced ->
     Pd.to_list sliced = Raise e ->
     is_ValueError e = false ->
     get_df table_name chunk_count kw s
     = (Raise e, after_read s d table_name (with_default_chunksize kw) false)).
Proof.
  intros He. repeat split.
  - intros d Hread. rewrite (get_df_run _ _ _ _ _ _ _ He Hread).
    destruct (Pd.islice Pd.Stop chunk_count) as [sliced|e] eqn:Hs.
    + by rewrite (islice_Stop _ _ Hs).
    + by rewrite (islice_raises _ _ _ Hs).
  - intros e d Hread. by rewrite (get_df_run _ _ _ _ _ _ _ He Hread).
  - intros dfs sliced e d Hread Hs Hl Hv.
    rewrite (get_df_run _ _ _ _ _ _ _ He Hread), Hs.
    unfold Pd.concat. by rewrite Hl, Hv.
Qed.

(** C6 fails on the code: the handler [except ValueError], written for
    the "No objects to concatenate" of an empty read, also catches a
    [ValueError] raised while a chunk is fetched.  A cursor whose first
    fetch raises one and a cursor that yields no chunk give the same
    outcome for every [chunk_count]: [None], and the same warning when a
    logger is configured.  The failure does not propagate and the caller
    cannot tell it from an empty read. *)
Theorem get_df_failure_read_as_empty table_name chunk_count kw s con dfs d :
  engine (self s) = Some con ->
  read_sql_table B table_name con (with_default_chunksize kw) (store s) = (Ok dfs, d) ->
  (dfs = Pd.Stop \/ exists msg, dfs = Pd.Fail (ValueError msg)) ->
  get_df table_name chunk_count kw s
  = (Ok None, after_read s d table_name (with_default_chunksize kw) true).
Proof.
  intros He Hread Hdfs. rewrite (get_df_run _ _ _ _ _ _ _ He Hread).
  destruct (Pd.islice dfs chunk_count) as [sliced|e] eqn:Hs;
    [|by rewrite (islice_raises _ _ _ Hs)].
  destruct Hdfs as [->|[msg ->]].
  - by rewrite (islice_Stop _ _ Hs).
  - by destruct (islice_Fail _ _ _ Hs) as [->| ->].
Qed.

(** C9: with [chunk_count = 0] nothing is taken from the cursor, so
    [get_df] returns [None], with a warning when a logger is configured,
    whatever the table holds. *)
Theorem get_df_zero_chunk_count table_name kw s con dfs d :
  engine (self s) = Some con ->
  read_sql_table B table_name con (with_default_chunksize kw) (store s)
  = (Ok dfs, d) ->
  get_df table_name (Some 0) kw s
  = (Ok None, after_read s d table_name (with_default_chunksize kw) true).
Proof.
  intros He Hread. by rewrite (get_df_run _ _ _ _ _ _ _ He Hread).
Qed.

End Reading.

Section ReadingExamples.

Import Demo.

Lemma get_df_read_outcomes_witness :
  engine logged = Some the_engine /\
  get_df "e" None ∅ (start logged two_tables)
  = (Ok None,
     @mkState backend logged two_tables
       [ReadSqlTable "e" (<["chunksize" := VInt 1000000]> ∅);
        LogWarning (NoObjects "e")]) /\
  get_df "missing" None ∅ (start logged two_tables)
  = (Raise (ValueError "Table not found"),
     @mkState backend logged two_tables
       [ReadSqlTable "missing" (<["chunksize" := VInt 1000000]> ∅)]).
Proof.
  split; [reflexivity|]. split.
  - exact (proj1 (@get_df_read_outcomes backend "e" None ∅ (start logged two_tables)
                    the_engine eq_refl) two_tables eq_refl).
  - exact (proj1 (proj2 (@get_df_read_outcomes backend "missing" None ∅
                           (start logged two_tables) the_engine eq_refl))
             (ValueError "Table not found") two_tables eq_refl).
Defined.

(** The first fetch from table [t] raises the [ValueError] of bytes that
    do not decode; the read of the empty table [e] yields nothing.  Both
    calls return [None] and log the same warning. *)
Lemma get_df_failure_read_as_empty_witness :
  engine logged = Some the_engine /\
  (@get_df (broken_backend (ValueError "invalid continuation byte")) "t" None ∅
     (@mkState (broken_backend (ValueError "invalid continuation byte")) logged two_tables [])
   = (Ok None,
      @mkState (broken_backend (ValueError "invalid continuation byte")) logged two_tables
        [ReadSqlTable "t" (<["chunksize" := VInt 1000000]> ∅);
         LogWarning (NoObjects "t")])) /\
  (get_df "e" None ∅ (start logged two_tables)
   = (Ok None,
      @mkState backend logged two_tables
        [ReadSqlTable "e" (<["chunksize" := VInt 1000000]> ∅);
         LogWarning (NoObjects "e")])).
Proof.
  split; [reflexivity|]. split.
  - exact (@get_df_failure_read_as_empty
             (broken_backend (ValueError "invalid continuation byte")) "t" None ∅
             (@mkState (broken_backend (ValueError "invalid continuation byte")) logged
                two_tables [])
             the_engine _ two_tables eq_refl eq_refl
             (or_intror (ex_intro _ "invalid continuation byte" eq_refl))).
  - exact (@get_df_failure_read_as_empty backend "e" None ∅ (start logged two_tables)
             the_engine _ two_tables eq_refl eq_refl (or_introl eq_refl)).
Defined.

Lemma get_df_zero_chunk_count_witness :
  engine logged = Some the_engine /\
  rows df10 <> [] /\
  get_df "t" (Some 0) ∅ (start logged two_tables)
  = (Ok None,
     @mkState backend logged two_tables
       [ReadSqlTable "t" (<["chunksize" := VInt 1000000]> ∅);
        LogWarning (NoObjects "t")]).
Proof.
  split; [reflexivity|]. split; [discriminate|].
  exact (@get_df_zero_chunk_count backend "t" ∅ (start logged two_tables)
           the_engine (Pd.Yield df10 Pd.Stop) two_tables eq_refl eq_refl).
Defined.

End ReadingExamples.

(** ** The engine: lazy initialisation and the connection of [query] *)

Section EngineUse.

Context {B : Backend}.
Implicit Types (s : state B) (kw : kwargs).

(** The guard of [get_table_names], [query] and [df_query]: an instance
    without engine gets one, with the default switch. *)
Lemma ensure_engine_absent s :
  engine (self s) = None -> ensure_engine s = _init_engine true s.
Proof. intros He. unfold ensure_engine, bind, get_self. by rewrite He. Qed.

Lemma ensure_engine_present s con :
  engine (self s) = Some con -> ensure_engine s = (Ok tt, s).
Proof. intros He. unfold ensure_engine, bind, get_self. by rewrite He. Qed.

Lemma init_engine_run (switch : bool) s d :
  logger (self s) = None ->
  create_engine B (connection_string (self s)) (store s) = (Ok tt, d) ->
  _init_engine switch s
  = (Ok tt,
     mkState (set_engine (mkEngine (connection_string (self s)) switch) (self s)) d
             (trace s ++ [CreateEngine (connection_string (self s))])).
Proof.
  intros Hl Hc. unfold _init_engine, bind, get_self, emit, call, assign_engine,
    has_logger, ret.
  simpl. rewrite Hc, Hl. reflexivity.
Qed.

(** The guarded methods do initialise the engine: [df_query] on a fresh
    instance creates it with the default switch and then reads. *)
Lemma df_query_initialises q s d :
  engine (self s) = None ->
  logger (self s) = None ->
  create_engine B (connection_string (self s)) (store s) = (Ok tt, d) ->
  exists r s',
    df_query q s = (r, s') /\
    engine (self s') = Some (mkEngine (connection_string (self s)) true) /\
    trace s' = (trace s ++ [CreateEngine (connection_string (self s)); ReadSqlQuery q])%list.
Proof.
  intros He Hl Hc. unfold df_query. unfold bind at 1.
  rewrite (ensure_engine_absent _ He), (init_engine_run true _ _ Hl Hc).
  unfold bind, getattr_engine, emit, call. simpl.
  destruct (read_sql_query B q _ d) as [r d'].
  eexists r, _. split; [reflexivity|]. simpl.
  by rewrite <- app_assoc.
Qed.

(** C5 fails on the code for [set_df] and [get_df]: on an instance whose
    engine has not been created they raise and leave the instance as it
    was, issuing no call; [get_df] raises [AttributeError]. *)
Theorem set_df_get_df_need_engine s :
  engine (self s) = None ->
  (forall table_name df if_exists chunksize kw,
     exists e, set_df table_name df if_exists chunksize kw s = (Raise e, s)) /\
  (forall table_name chunk_count kw,
     get_df table_name chunk_count kw s = (Raise (AttributeError "engine"), s)).
Proof.
  intros He. split.
  - intros table_name df if_exists chunksize kw. unfold set_df. unfold bind at 1.
    destruct chunksize as [c|]; [destruct (c <? size df)%Z|];
      try (rewrite (write_df_no_engine _ _ _ _ He); by eexists).
    unfold bind, lift.
    destruct (__split_df df c) as [chunks|e]; [|by eexists].
    destruct (kw !! "dfs"); [by eexists|].
    destruct chunks as [|df0 dfs]; [by eexists|].
    cbn [__write_split_df]. unfold bind.
    rewrite (write_df_no_engine _ _ _ _ He). by eexists.
  - intros table_name chunk_count kw.
    unfold get_df, bind, getattr_engine. by rewrite He.
Qed.

(** [query] on the path without exception: the connection is closed. *)
Lemma query_closes_on_success q logging s con c res d1 d2 d3 :
  engine (self s) = Some con ->
  connect B con (store s) = (Ok c, d1) ->
  execute B c q d1 = (Ok res, d2) ->
  close B c d2 = (Ok tt, d3) ->
  exists logged,
    query q logging s
    = (Ok res,
       mkState (self s) d3
         (trace s ++ [Connect c; Execute c q] ++ logged ++ [Close c])%list) /\
    (forall ev, ev ∈ logged -> ev = LogInfo (RanQuery q)).
Proof.
  intros He Hc Hx Hcl. unfold query. unfold bind at 1.
  rewrite (ensure_engine_present _ _ He).
  unfold bind, getattr_engine, call, emit, get_self, when, ret.
  rewrite He. simpl. rewrite Hc. simpl. rewrite Hx. simpl.
  destruct (logging && has_logger (self s))%bool; simpl; rewrite Hcl.
  - exists [LogInfo (RanQuery q)]. split.
    + do 2 f_equal. rewrite <- !app_assoc. reflexivity.
    + intros ev Hev. by apply list_elem_of_singleton in Hev.
  - exists []. split.
    + do 2 f_equal. rewrite <- !app_assoc. reflexivity.
    + intros ev Hev. by apply elem_of_nil in Hev.
Qed.

(** C4 fails on the code: when the backend raises during execution,
    [query] lets the exception through without closing the connection
    it acquired. *)
Theorem query_leaks_connection_on_error q logging s con c e d1 d2 :
  engine (self s) = Some con ->
  connect B con (store s) = (Ok c, d1) ->
  execute B c q d1 = (Raise e, d2) ->
  query q logging s
  = (Raise e, mkState (self s) d2 (trace s ++ [Connect c; Execute c q])) /\
  forall acc, c ∈ open_connections [Connect c; Execute c q] acc.
Proof.
  intros He Hc Hx. split.
  - unfold query. unfold bind at 1.
    rewrite (ensure_engine_present _ _ He).
    unfold bind, getattr_engine, call, emit.
    rewrite He. simpl. rewrite Hc. simpl. rewrite Hx. simpl.
    do 2 f_equal. rewrite <- app_assoc. reflexivity.
  - intros acc. simpl. apply elem_of_app. right. by apply list_elem_of_singleton.
Qed.

End EngineUse.

Section EngineExamples.

Import Demo.

(** A fresh instance: [set_df] and [get_df] raise, the engine is still
    absent afterwards. *)
Lemma set_df_get_df_need_engine_witness :
  engine fresh = None /\
  set_df "t" df10 (VStr "replace") (Some 1000000) ∅ (start fresh ∅)
  = (Raise (AttributeError "engine"), start fresh ∅) /\
  get_df "t" None ∅ (start fresh two_tables)
  = (Raise (AttributeError "engine"), start fresh two_tables).
Proof.
  split; [reflexivity|]. split; [reflexivity|].
  exact (proj2 (@set_df_get_df_need_engine backend (start fresh two_tables) eq_refl)
           "t" None ∅).
Defined.

(** A misspelt statement: the backend raises, the connection 1 stays
    open. *)
Lemma query_leaks_connection_on_error_witness :
  query "SELEC 1" false s0
  = (Raise (BackendError "syntax error"),
     @mkState backend ready ∅ [Connect 1%nat; Execute 1%nat "SELEC 1"]) /\
  open_connections [Connect 1%nat; Execute 1%nat "SELEC 1"] [] = [1%nat].
Proof.
  split; [|reflexivity].
  exact (proj1 (@query_leaks_connection_on_error backend "SELEC 1" false s0
                  the_engine 1%nat (BackendError "syntax error") ∅ ∅
                  eq_refl eq_refl eq_refl)).
Defined.

End EngineExamples.


(** ** Strings: substring test and [quote_plus] *)

Section Strings.

Lemma app_String c (a b : string) : String c a +:+ b = String c (a +:+ b).
Proof. reflexivity. Qed.

Lemma startswith_spec (p : string) : forall s,
  Str.startswith s p = true <-> exists post, s = p +:+ post.
Proof.
  induction p as [|a p IH]; intros s.
  - split; [intros _; exists s; reflexivity | by destruct s].
  - destruct s as [|b s]; simpl.
    + split; [done | intros [post H]; discriminate].
    + destruct (Ascii.eqb_spec a b) as [->|Hne].
      * rewrite IH. split; intros [post H]; exists post.
        -- by rewrite app_String, H.
        -- rewrite app_String in H. by inversion H.
      * split; [done|]. intros [post H]. rewrite app_String in H.
        inversion H. done.
Qed.

(** ['sub' in s] holds exactly when [s] is some text, [sub], and some
    more text: the test of the constructor for ['pyodbc'] is the substring
    test. *)
Theorem contains_spec (sub s : string) :
  Str.contains sub s = true <-> exists pre post, s = pre +:+ sub +:+ post.
Proof.
  induction s as [|c s IH].
  - cbn [Str.contains]. destruct (Str.startswith "" sub) eqn:Hs; cbn iota.
    + apply startswith_spec in Hs as [post Hs]. split; [|done].
      intros _. exists "", post. exact Hs.
    + split; [done|]. intros (pre & post & H).
      destruct pre; [|discriminate].
      assert (Str.startswith "" sub = true) by (apply startswith_spec; eauto).
      congruence.
  - cbn [Str.contains]. destruct (Str.startswith (String c s) sub) eqn:Hs; cbn iota.
    + apply startswith_spec in Hs as [post Hs]. split; [|done].
      intros _. exists "", post. exact Hs.
    + rewrite IH. split.
      * intros (pre & post & ->). by exists (String c pre), post.
      * intros (pre & post & H). destruct pre as [|c' pre].
        -- assert (Str.startswith (String c s) sub = true)
             by (apply startswith_spec; eauto).
           congruence.
        -- rewrite app_String in H. inversion H. eauto.
Qed.

Lemma contains_spec_witness :
  Str.contains "pyodbc" "mssql+pyodbc" = true /\
  exists pre post, "mssql+pyodbc" = pre +:+ "pyodbc" +:+ post.
Proof.
  split; [reflexivity|].
  exact (proj1 (contains_spec "pyodbc" "mssql+pyodbc") eq_refl).
Defined.

Local Ltac each_byte c := destruct c as [[] [] [] [] [] [] [] []].

Lemma decode_quoter_plain c rest :
  decode_quoted (Str.quoter "" c +:+ rest) = String c (decode_quoted rest).
Proof. each_byte c; reflexivity. Qed.

Lemma decode_quoter_plus c rest :
  decode_quoted (Str.replace " " "+" (Str.quoter " " c) +:+ rest)
  = String c (decode_quoted rest).
Proof. each_byte c; reflexivity. Qed.

Lemma quoted_quoter_plain c : string_forall quoted_char (Str.quoter "" c) = true.
Proof. each_byte c; reflexivity. Qed.

Lemma quoted_quoter_plus c :
  string_forall quoted_char (Str.replace " " "+" (Str.quoter " " c)) = true.
Proof. each_byte c; reflexivity. Qed.

Lemma always_safe_not_space c : Str.always_safe c = true -> Ascii.eqb " " c = false.
Proof. each_byte c; (reflexivity || discriminate). Qed.

Lemma replace_app a b (x y : string) :
  Str.replace a b (x +:+ y) = Str.replace a b x +:+ Str.replace a b y.
Proof.
  induction x as [|c x IH]; [reflexivity|].
  rewrite app_String. cbn [Str.replace]. by rewrite IH.
Qed.

Lemma string_forall_app p (x y : string) :
  string_forall p (x +:+ y) = (string_forall p x && string_forall p y)%bool.
Proof.
  induction x as [|c x IH]; [reflexivity|].
  rewrite app_String. cbn [string_forall]. by rewrite IH, andb_assoc.
Qed.

Lemma decode_quote_plain (s : string) : decode_quoted (Str.quote "" s) = s.
Proof.
  induction s as [|c s IH]; [reflexivity|].
  cbn [Str.quote]. by rewrite decode_quoter_plain, IH.
Qed.

Lemma decode_quote_plus (s : string) :
  decode_quoted (Str.replace " " "+" (Str.quote " " s)) = s.
Proof.
  induction s as [|c s IH]; [reflexivity|].
  cbn [Str.quote]. by rewrite replace_app, decode_quoter_plus, IH.
Qed.

Lemma decode_quote_plus_inverse (s : string) : decode_quoted (Str.quote_plus s) = s.
Proof.
  unfold Str.quote_plus. destruct (negb _).
  - apply decode_quote_plain.
  - apply decode_quote_plus.
Qed.

(** [quote_plus] loses nothing: two texts with the same encoding are the
    same text, so two inner strings never share an ODBC descriptor
    suffix. *)
Theorem quote_plus_injective (a b : string) :
  Str.quote_plus a = Str.quote_plus b -> a = b.
Proof.
  intros H. rewrite <- (decode_quote_plus_inverse a), <- (decode_quote_plus_inverse b).
  by rewrite H.
Qed.

Lemma quote_plus_injective_witness :
  Str.quote_plus "a b" = Str.quote_plus "a b" /\ "a b" = "a b" /\
  Str.quote_plus "a b" = "a+b" /\ Str.quote_plus "a+b" = "a%2Bb".
Proof.
  split; [reflexivity|]. split; [|split; reflexivity].
  exact (quote_plus_injective "a b" "a b" eq_refl).
Defined.

(** What [quote_plus] writes holds nothing but letters, digits, [_.-~],
    the escape sign and the plus: no space, [;], [=] or [/] of the inner
    string reaches the descriptor as it is. *)
Theorem quote_plus_output (s : string) :
  string_forall quoted_char (Str.quote_plus s) = true.
Proof.
  unfold Str.quote_plus. destruct (negb _).
  - induction s as [|c s IH]; [reflexivity|].
    cbn [Str.quote]. by rewrite string_forall_app, quoted_quoter_plain, IH.
  - induction s as [|c s IH]; [reflexivity|].
    cbn [Str.quote]. by rewrite replace_app, string_forall_app, quoted_quoter_plus, IH.
Qed.

Lemma mem_char_space_safe (s : string) :
  string_forall Str.always_safe s = true -> Str.mem_char " " s = false.
Proof.
  unfold Str.mem_char. induction s as [|c s IH]; [reflexivity|].
  cbn [string_forall list_ascii_of_string existsb].
  intros [Hc Hs]%andb_prop. by rewrite (always_safe_not_space c Hc), (IH Hs).
Qed.

(** A text of always safe characters is its own encoding. *)
Theorem quote_plus_safe_text (s : string) :
  string_forall Str.always_safe s = true -> Str.quote_plus s = s.
Proof.
  intros Hs. unfold Str.quote_plus. rewrite (mem_char_space_safe s Hs). simpl.
  induction s as [|c s IH]; [reflexivity|].
  cbn [string_forall] in Hs. apply andb_prop in Hs as [Hc Hs].
  cbn [Str.quote]. unfold Str.quoter. rewrite Hc. simpl. by rewrite (IH Hs).
Qed.

Lemma quote_plus_safe_text_witness :
  string_forall Str.always_safe "localhost" = true /\
  Str.quote_plus "localhost" = "localhost".
Proof.
  split; [reflexivity|]. exact (quote_plus_safe_text "localhost" eq_refl).
Defined.

End Strings.


(** ** Construction: missing keys and the keys that matter *)

Section ConstructionEdges.

Local Ltac open_init :=
  unfold __init__, Str.format;
  rewrite ?parse_standard, ?parse_db_name, ?parse_inner, ?parse_odbc;
  cbn [Str.format_pieces].

(** A config that lacks a required key makes the constructor raise
    [KeyError] for the first key missing, in the order [db_type], [user],
    [password], [address], [db_name]. *)
Theorem init_missing_key engine_args lg k :
  first_missing required_keys engine_args = Some k ->
  __init__ engine_args lg = Raise (KeyError k).
Proof.
  intros H. open_init. cbn [first_missing required_keys] in H.
  destruct (engine_args !! "db_type") eqn:E1; [|by inversion H].
  destruct (engine_args !! "user") eqn:E2; [|by inversion H].
  destruct (engine_args !! "password") eqn:E3; [|by inversion H].
  destruct (engine_args !! "address") eqn:E4; [|by inversion H].
  destruct (engine_args !! "db_name") eqn:E5; [discriminate|].
  inversion H. reflexivity.
Qed.

Lemma init_missing_key_witness :
  first_missing required_keys (delete "password" Demo.postgres_args) = Some "password" /\
  __init__ (delete "password" Demo.postgres_args) None = Raise (KeyError "password").
Proof.
  split; [reflexivity|].
  exact (init_missing_key (delete "password" Demo.postgres_args) None "password" eq_refl).
Defined.

Lemma init_ok_fields (args : gmap string string) lg c :
  __init__ args lg = Ok c ->
  logger c = lg /\ engine_args c = args /\ engine c = None /\
  first_missing required_keys args = None.
Proof.
  open_init. cbn [first_missing required_keys].
  destruct (args !! "db_type") as [db_type|] eqn:E1; [|discriminate].
  destruct (args !! "user") eqn:E2; [|discriminate].
  destruct (args !! "password") eqn:E3; [|discriminate].
  destruct (args !! "address") eqn:E4; [|discriminate].
  cbn [Str.format_pieces].
  destruct (args !! "db_name") eqn:E5; [|discriminate].
  cbn [Str.format_pieces].
  destruct (Str.contains "pyodbc" db_type).
  - destruct (args !! "driver"); [|discriminate].
    cbn [Str.format_pieces].
    destruct (args !! "conn"); [discriminate|].
    rewrite lookup_insert_ne, E1, lookup_insert_eq by done. cbn [Str.format_pieces].
    intros [= <-]. done.
  - intros [= <-]. done.
Qed.

(** A constructed instance holds the config and the logger it was given
    and has no engine yet; the config then has every required key. *)
Theorem init_ok_inversion (args : gmap string string) lg c :
  __init__ args lg = Ok c ->
  logger c = lg /\ engine_args c = args /\ engine c = None /\
  first_missing required_keys args = None.
Proof. exact (init_ok_fields args lg c). Qed.

Lemma init_ok_inversion_witness :
  __init__ Demo.mssql_args None
  = Ok (mkConnector None Demo.mssql_args
          ("mssql+pyodbc:///?odbc_connect="
             +:+ Str.quote_plus "DRIVER=ODBC Driver 17;SERVER=host;DATABASE=db;UID=u;PWD=p")
          None) /\
  first_missing required_keys Demo.mssql_args = None.
Proof.
  split; [reflexivity|].
  exact (proj2 (proj2 (proj2 (init_ok_inversion Demo.mssql_args None _ eq_refl)))).
Defined.

(** The constructor reads the five required keys, [driver] and [conn] and
    nothing else: two configs that agree on these give the same
    descriptor, or the same exception. *)
Theorem init_reads_named_keys (args1 args2 : gmap string string) lg1 lg2 :
  agree_on named_keys args1 args2 ->
  descriptor (__init__ args1 lg1) = descriptor (__init__ args2 lg2).
Proof.
  intros H. unfold agree_on, named_keys, required_keys in H. cbn [app] in H.
  repeat (apply Forall_cons in H as [? H]).
  assert (Hconn : forall v, <["conn" := v]> args1 !! "db_type"
                            = <["conn" := v]> args2 !! "db_type")
    by (intros v; by rewrite !lookup_insert_ne).
  open_init.
  repeat match goal with E : args1 !! _ = args2 !! _ |- _ => rewrite E; clear E end.
  repeat (case_match; cbn [Str.format_pieces descriptor];
          rewrite ?Hconn, ?lookup_insert_eq; try reflexivity).
Qed.

Lemma init_reads_named_keys_witness :
  agree_on named_keys Demo.postgres_args (<["sslmode" := "require"]> Demo.postgres_args) /\
  descriptor (__init__ (<["sslmode" := "require"]> Demo.postgres_args) None)
  = Ok "postgresql://u:p@localhost/testdb".
Proof.
  assert (H : agree_on named_keys Demo.postgres_args
                (<["sslmode" := "require"]> Demo.postgres_args))
    by (repeat constructor).
  split; [exact H|].
  rewrite <- (init_reads_named_keys _ _ None None H). reflexivity.
Defined.

End ConstructionEdges.


(** ** The engine: initialisation and the guarded methods *)

Section EngineLifecycle.

Context {B : Backend}.
Implicit Types (s : state B) (kw : kwargs).

Lemma first_missing_None ks (m : gmap string string) :
  first_missing ks m = None -> Forall (fun k => is_Some (m !! k)) ks.
Proof.
  induction ks as [|k ks IH]; simpl; [constructor|].
  destruct (m !! k) eqn:E; [|discriminate].
  intros H. constructor; [by rewrite E | auto].
Qed.

Lemma creations_of_app (t1 t2 : list event) :
  creations_of (t1 ++ t2) = (creations_of t1 ++ creations_of t2)%list.
Proof.
  induction t1 as [|ev t1 IH]; [reflexivity|].
  destruct ev; simpl; rewrite IH; reflexivity.
Qed.

Lemma init_engine_outcome (switch : bool) s :
  match create_engine B (connection_string (self s)) (store s) with
  | (Raise e, d) =>
      _init_engine switch s
      = (Raise e, mkState (self s) d (trace s ++ [CreateEngine (connection_string (self s))]))
  | (Ok _, d) =>
      exists r s',
        _init_engine switch s = (r, s') /\
        self s' = set_engine (mkEngine (connection_string (self s)) switch) (self s) /\
        store s' = d /\
        creations_of (trace s') = (creations_of (trace s) ++ [connection_string (self s)])%list
  end.
Proof.
  unfold _init_engine, bind, get_self, emit, call, assign_engine, getitem_engine_args, ret.
  simpl. destruct (create_engine B _ _) as [[[]|e] d]; [|reflexivity].
  destruct (has_logger (self s)); simpl.
  - destruct (engine_args (self s) !! "address"); simpl;
      [|eexists _, _; split; [reflexivity|]; simpl; by rewrite creations_of_app].
    destruct (engine_args (self s) !! "db_name"); simpl;
      [|eexists _, _; split; [reflexivity|]; simpl; by rewrite creations_of_app].
    destruct (engine_args (self s) !! "user"); simpl;
      [|eexists _, _; split; [reflexivity|]; simpl; by rewrite creations_of_app].
    eexists _, _. split; [reflexivity|]. simpl.
    by rewrite !creations_of_app, app_nil_r.
  - eexists _, _; split; [reflexivity|]; simpl; by rewrite creations_of_app.
Qed.

(** [_init_engine] puts an engine for the descriptor, with the given
    switch, in the place of any engine the instance had; when
    [create_engine] raises, the instance keeps what it had and the
    exception goes on. *)
Theorem init_engine_replaces (switch : bool) s :
  match create_engine B (connection_string (self s)) (store s) with
  | (Raise e, d) =>
      _init_engine switch s
      = (Raise e, mkState (self s) d (trace s ++ [CreateEngine (connection_string (self s))]))
  | (Ok _, d) =>
      exists r s',
        _init_engine switch s = (r, s') /\
        self s' = set_engine (mkEngine (connection_string (self s)) switch) (self s) /\
        store s' = d /\
        creations_of (trace s') = (creations_of (trace s) ++ [connection_string (self s)])%list
  end.
Proof. exact (init_engine_outcome switch s). Qed.

Lemma init_engine_ok_engine (switch : bool) s s1 :
  _init_engine switch s = (Ok tt, s1) ->
  engine (self s1) = Some (mkEngine (connection_string (self s)) switch).
Proof.
  pose proof (init_engine_outcome switch s) as H.
  destruct (create_engine B _ _) as [[[]|e] d].
  - destruct H as (r & s' & -> & Hself & _). intros [= _ <-]. by rewrite Hself.
  - rewrite H. discriminate.
Qed.

(** Construction and initialisation compose: on an instance the
    constructor returned, [_init_engine] raises only when [create_engine]
    does; the keys of its log record are there.  It leaves the engine for
    the descriptor and, with a logger, one record. *)
Theorem init_then_init_engine (args : gmap string string) lg c (switch : bool)
  (d d' : db B) (t : list event) :
  __init__ args lg = Ok c ->
  create_engine B (connection_string c) d = (Ok tt, d') ->
  exists address db_name user,
    args !! "address" = Some address /\
    args !! "db_name" = Some db_name /\
    args !! "user" = Some user /\
    _init_engine switch (mkState c d t)
    = (Ok tt,
       mkState (set_engine (mkEngine (connection_string c) switch) c) d'
         (t ++ CreateEngine (connection_string c)
            :: match lg with
               | Some _ => [LogInfo (InitiatedEngine address db_name user)]
               | None => []
               end)).
Proof.
  intros Hinit Hcreate.
  destruct (init_ok_fields args lg c Hinit) as (Hlg & Hargs & _ & Hkeys).
  apply first_missing_None in Hkeys. unfold required_keys in Hkeys.
  repeat (apply Forall_cons in Hkeys as [? Hkeys]).
  repeat match goal with H : is_Some _ |- _ => destruct H end.
  do 3 eexists. repeat (split; [eassumption|]).
  destruct c as [lg' args' cs eng]. simpl in Hlg, Hargs, Hcreate. subst lg' args'.
  unfold _init_engine, bind, get_self, emit, call, assign_engine, getitem_engine_args,
    has_logger, ret.
  simpl. rewrite Hcreate. simpl.
  destruct lg; simpl.
  - repeat (match goal with H : args !! _ = Some _ |- _ => rewrite H end; simpl).
    by rewrite <- app_assoc.
  - reflexivity.
Qed.

(** On an instance without engine, each guarded method is
    [_init_engine()] with its default switch followed by the method: what
    the call does is what the two calls of the documented usage do. *)
Theorem guarded_methods_lazy_init s (q : string) (logging : bool) :
  engine (self s) = None ->
  get_table_names s = (_init_engine true ;;; get_table_names) s /\
  query q logging s = (_init_engine true ;;; query q logging) s /\
  df_query q s = (_init_engine true ;;; df_query q) s.
Proof.
  intros He.
  assert (Hguard : forall A (rest : M B A),
            (ensure_engine ;;; rest) s
            = (_init_engine true ;;; ensure_engine ;;; rest) s).
  { intros A rest. unfold bind at 1 2.
    rewrite (ensure_engine_absent _ He).
    destruct (_init_engine true s) as [[[]|e] s1] eqn:Hi; [|reflexivity].
    unfold bind. by rewrite (ensure_engine_present _ _ (init_engine_ok_engine _ _ _ Hi)). }
  repeat split; apply Hguard.
Qed.

(** On an instance that has an engine, the guarded methods create none
    and leave the instance as it is. *)
Theorem guarded_methods_keep_engine s con (q : string) (logging : bool) :
  engine (self s) = Some con ->
  (self (get_table_names s).2 = self s /\
   creations_of (trace (get_table_names s).2) = creations_of (trace s)) /\
  (self (query q logging s).2 = self s /\
   creations_of (trace (query q logging s).2) = creations_of (trace s)) /\
  (self (df_query q s).2 = self s /\
   creations_of (trace (df_query q s).2) = creations_of (trace s)).
Proof.
  intros He. repeat split.
  all: unfold get_table_names, query, df_query; unfold bind at 1;
    rewrite (ensure_engine_present _ _ He);
    unfold bind, getattr_engine, emit, call, get_self, when, ret; rewrite He; simpl.
  all: repeat match goal with
         | |- context [if ?b then _ else _] => destruct b; simpl
         | |- context [let (_, _) := ?f (store ?x) in _] => destruct (f (store x)) as [[?|?] ?]; simpl
         | |- context [let (_, _) := ?f ?d in _] => destruct (f d) as [[?|?] ?]; simpl
         end;
    rewrite ?creations_of_app; simpl; rewrite ?app_nil_r; reflexivity.
Qed.

(** When [query] returns, it has opened one connection, executed the
    statement on it and closed it, and no connection of the call stays
    open; the statement is logged exactly when [logging] is set and a
    logger is configured. *)
Theorem query_returns_closed (q : string) (logging : bool) s con res s' :
  engine (self s) = Some con ->
  query q logging s = (Ok res, s') ->
  exists c,
    let issued :=
      ([Connect c; Execute c q]
       ++ (if (logging && has_logger (self s))%bool then [LogInfo (RanQuery q)] else [])
       ++ [Close c])%list in
    trace s' = (trace s ++ issued)%list /\
    open_connections issued [] = [].
Proof.
  intros He. unfold query. unfold bind at 1.
  rewrite (ensure_engine_present _ _ He).
  unfold bind, getattr_engine, emit, call, get_self, when, ret. rewrite He. simpl.
  destruct (connect B con (store s)) as [[c|e] d1]; simpl; [|discriminate].
  destruct (execute B c q d1) as [[res'|e] d2]; simpl; [|discriminate].
  assert (Hclosed : filter (fun x => x ≠ c) [c] = []).
  { rewrite filter_cons, filter_nil. by case_decide. }
  destruct (logging && has_logger (self s))%bool; simpl;
    destruct (close B c d2) as [[[]|e] d3]; cbn [fst snd]; try discriminate;
    intros [= <- <-]; exists c; cbn [trace app open_connections];
    rewrite <- ?app_assoc; (split; [reflexivity|]); exact Hclosed.
Qed.

End EngineLifecycle.

Section EngineLifecycleExamples.

Import Demo.

Lemma init_then_init_engine_witness :
  __init__ postgres_args (Some (LoggerHandle "connectors"))
  = Ok (mkConnector (Some (LoggerHandle "connectors")) postgres_args
          "postgresql://u:p@localhost/testdb" None) /\
  @_init_engine backend true
    (@mkState backend
       (mkConnector (Some (LoggerHandle "connectors")) postgres_args
          "postgresql://u:p@localhost/testdb" None) ∅ [])
  = (Ok tt,
     @mkState backend logged ∅
       [CreateEngine "postgresql://u:p@localhost/testdb";
        LogInfo (InitiatedEngine "localhost" "testdb" "u")]).
Proof.
  split; [reflexivity|].
  destruct (@init_then_init_engine backend postgres_args
              (Some (LoggerHandle "connectors")) _ true ∅ ∅ [] eq_refl eq_refl)
    as (a & n & u & Ha & Hn & Hu & Hrun).
  vm_compute in Ha, Hn, Hu. inversion Ha. inversion Hn. inversion Hu. subst.
  exact Hrun.
Defined.

Lemma guarded_methods_lazy_init_witness :
  engine fresh = None /\
  query "SELECT 1" false (start fresh ∅)
  = (Ok (ResultHandle []),
     @mkState backend ready ∅
       [CreateEngine "postgresql://u:p@localhost/testdb";
        Connect 1%nat; Execute 1%nat "SELECT 1"; Close 1%nat]) /\
  query "SELECT 1" false (start fresh ∅)
  = (_init_engine true ;;; query "SELECT 1" false) (start fresh ∅).
Proof.
  split; [reflexivity|]. split; [reflexivity|].
  exact (proj1 (proj2 (@guarded_methods_lazy_init backend (start fresh ∅)
                         "SELECT 1" false eq_refl))).
Defined.

Lemma guarded_methods_keep_engine_witness :
  engine (self s0) = Some the_engine /\
  self (df_query "SELECT 1" s0).2 = ready /\
  creations_of (trace (df_query "SELECT 1" s0).2) = [].
Proof.
  split; [reflexivity|].
  exact (proj2 (proj2 (@guarded_methods_keep_engine backend s0 the_engine
                         "SELECT 1" false eq_refl))).
Defined.

Lemma query_returns_closed_witness :
  engine (self (start logged ∅)) = Some the_engine /\
  exists c,
    trace (query "SELECT 1" true (start logged ∅)).2
    = [Connect c; Execute c "SELECT 1"; LogInfo (RanQuery "SELECT 1"); Close c].
Proof.
  split; [reflexivity|].
  destruct (@query_returns_closed backend "SELECT 1" true (start logged ∅)
              the_engine (ResultHandle []) _ eq_refl eq_refl) as (c & Ht & _).
  exists c. exact Ht.
Defined.

End EngineLifecycleExamples.


(** ** Writing: what [set_df] leaves behind *)

Section WritingFrame.

Context {B : Backend}.
Implicit Types (s : state B) (kw : kwargs) (df : DataFrame).

Lemma logs_of_app (t1 t2 : list event) :
  logs_of (t1 ++ t2) = (logs_of t1 ++ logs_of t2)%list.
Proof.
  induction t1 as [|ev t1 IH]; [reflexivity|].
  destruct ev; simpl; rewrite IH; reflexivity.
Qed.

Lemma quiet_refl s : quiet s s.
Proof. by repeat split. Qed.

Lemma quiet_trans s1 s2 s3 : quiet s1 s2 -> quiet s2 s3 -> quiet s1 s3.
Proof. intros (? & ? & ?) (? & ? & ?). repeat split; congruence. Qed.

Lemma write_df_quiet table_name df kw s : quiet s (__write_df table_name df kw s).2.
Proof.
  unfold __write_df, bind, getattr_engine, emit, call, ret.
  destruct (engine (self s)) as [con|]; simpl; [|apply quiet_refl].
  destruct (to_sql B table_name df con kw (store s)) as [[[]|e] d]; simpl;
    repeat split; simpl; rewrite ?logs_of_app, ?creations_of_app; simpl;
    by rewrite app_nil_r.
Qed.

Lemma write_appending_quiet table_name kw (dfs : list DataFrame) :
  forall s, quiet s (write_appending table_name dfs kw s).2.
Proof.
  induction dfs as [|d dfs IH]; intros s; [apply quiet_refl|].
  cbn [write_appending]. unfold bind.
  pose proof (write_df_quiet table_name d (<["if_exists" := VStr "append"]> kw) s) as H.
  destruct (__write_df _ _ _ s) as [[b|e] s1]; simpl in *; [|done].
  eapply quiet_trans; [exact H | apply IH].
Qed.

Lemma write_split_df_quiet table_name (dfs : list DataFrame) kw s :
  quiet s (__write_split_df table_name dfs kw s).2.
Proof.
  destruct dfs as [|df0 dfs]; [apply quiet_refl|].
  cbn [__write_split_df]. unfold bind, raise, ret.
  pose proof (write_df_quiet table_name df0 kw s) as H.
  destruct (__write_df _ _ _ s) as [[b|e] s1]; simpl in *; [|done].
  destruct (kw !! "if_exists"); [|done].
  pose proof (write_appending_quiet table_name (delete "if_exists" kw) dfs s1) as H'.
  destruct (write_appending _ _ _ s1) as [[[]|e] s2]; simpl in *;
    eapply quiet_trans; eassumption.
Qed.

(** [set_df] never changes the instance and never creates an engine.  It
    writes one log record, after the writes, when it returns and a logger
    is configured; when it raises it logs nothing. *)
Theorem set_df_frame table_name df (if_exists : value) (chunksize : option Z) kw s :
  let out := set_df table_name df if_exists chunksize kw s in
  self out.2 = self s /\
  creations_of (trace out.2) = creations_of (trace s) /\
  logs_of (trace out.2)
  = (logs_of (trace s)
     ++ (if (is_Ok out.1 && has_logger (self s))%bool
         then [LogInfo (Wrote table_name (shape df))] else []))%list.
Proof.
  cbv zeta. destruct (set_df table_name df if_exists chunksize kw s) as [r s'] eqn:Hout.
  unfold set_df in Hout. unfold bind at 1 in Hout.
  match type of Hout with context [match ?body s with _ => _ end] =>
    assert (Hq : quiet s (body s).2); [|destruct (body s) as [[b|e] s1]]
  end.
  { destruct chunksize as [c|]; [destruct (c <? size df)%Z|];
      try apply write_df_quiet.
    unfold bind, lift. destruct (__split_df df c); [|apply quiet_refl].
    destruct (kw !! "dfs"); [apply quiet_refl|].
    apply write_split_df_quiet. }
  - destruct Hq as (Hself & Hlogs & Hcre). simpl in *.
    unfold bind, get_self, when, emit, ret in Hout. rewrite Hself in Hout.
    destruct (has_logger (self s)); simpl in Hout; inversion Hout; subst; simpl;
      repeat split; simpl;
      rewrite ?logs_of_app, ?creations_of_app; simpl; rewrite ?app_nil_r; congruence.
  - destruct Hq as (Hself & Hlogs & Hcre). simpl in *.
    inversion Hout; subst; simpl. by rewrite app_nil_r.
Qed.

Lemma size_nonneg df : 0 <= size df.
Proof. unfold size. lia. Qed.

Lemma ceil_div_nonpos a b : b < 0 -> 0 <= a -> ceil_div a b <= 0.
Proof.
  intros Hb Ha. unfold ceil_div.
  assert (0 <= - a / b).
  { rewrite <- (Z.opp_involutive b), Z.div_opp_opp by lia.
    apply Z.div_pos; lia. }
  lia.
Qed.

(** A [chunksize] of zero or less, below the cell count, makes [set_df]
    raise before anything is written: for zero the arithmetic error of
    the division ([ZeroDivisionError] or [OverflowError], by the type of
    [df.size]), for a negative one the [ValueError] of [array_split].  The state is as
    before. *)
Theorem set_df_bad_chunksize table_name df (if_exists : value) (chunksize : Z) kw s :
  chunksize <= 0 -> chunksize < size df ->
  set_df table_name df if_exists (Some chunksize) kw s
  = (Raise (if (chunksize =? 0)%Z then ArithmeticError
            else ValueError "number sections must be larger than 0."), s).
Proof.
  intros Hc Hs. unfold set_df. unfold bind at 1.
  destruct (Z.ltb_spec chunksize (size df)) as [_|?]; [|lia].
  unfold bind at 1, lift, __split_df.
  destruct (Z.eqb_spec chunksize 0) as [->|Hne]; [reflexivity|].
  unfold Np.array_split.
  pose proof (ceil_div_nonpos (size df) chunksize ltac:(lia) (size_nonneg df)).
  destruct (Z.leb_spec (ceil_div (size df) chunksize) 0) as [_|?]; [reflexivity|lia].
Qed.

Lemma ceil_div_ge_2 a b : 0 < b -> b < a -> 2 <= ceil_div a b.
Proof.
  intros Hb Ha. unfold ceil_div.
  assert (- a / b < -1) by (apply Z.div_lt_upper_bound; lia). lia.
Qed.

(** A split write is not undone.  A split table has at least two chunks;
    when the write of the first is accepted and the write of the second
    raises, [set_df], called without a driver option named [dfs], raises
    the same exception after these two calls, logs nothing, and the
    store is what the two calls left: the first chunk stays written. *)
Theorem set_df_no_rollback table_name df (if_exists : value) (chunksize : Z) kw s con :
  engine (self s) = Some con ->
  0 < chunksize -> chunksize < size df ->
  kw !! "dfs" = None ->
  exists c0 c1 rest,
    __split_df df chunksize = Ok (c0 :: c1 :: rest) /\
    forall d1 e d2,
      to_sql B table_name c0 con (<["if_exists" := if_exists]> kw) (store s) = (Ok tt, d1) ->
      to_sql B table_name c1 con (<["if_exists" := VStr "append"]> kw) d1 = (Raise e, d2) ->
      set_df table_name df if_exists (Some chunksize) kw s
      = (Raise e,
         mkState (self s) d2
           (trace s ++ [ToSql table_name c0 (<["if_exists" := if_exists]> kw);
                        ToSql table_name c1 (<["if_exists" := VStr "append"]> kw)])).
Proof.
  intros He Hc Hs Hdfs.
  destruct (split_df_cover df chunksize Hc Hs) as (chunks & Hsplit & Hlen & _ & _).
  pose proof (ceil_div_ge_2 (size df) chunksize Hc Hs) as H2.
  destruct chunks as [|c0 [|c1 rest]]; simpl in Hlen; try lia.
  exists c0, c1, rest. split; [exact Hsplit|].
  intros d1 e d2 Hw0 Hw1.
  unfold set_df. unfold bind at 1.
  destruct (Z.ltb_spec chunksize (size df)) as [_|?]; [|lia].
  unfold bind at 1, lift. rewrite Hsplit, Hdfs.
  cbn [__write_split_df write_appending]. unfold bind at 1.
  rewrite (write_df_run _ _ _ _ _ He), Hw0. cbn [fst snd].
  rewrite lookup_insert_eq, delete_insert_eq, insert_delete_eq.
  unfold bind at 1 2.
  rewrite (write_df_run _ _ _ _ con) by exact He.
  cbn [store trace self]. rewrite Hw1. cbn [fst snd].
  by rewrite <- app_assoc.
Qed.

End WritingFrame.

Section WritingFrameExamples.

Import Demo.

Lemma set_df_bad_chunksize_witness :
  0 <= 0 /\ 0 < size Demo.df10 /\
  set_df "t" Demo.df10 (VStr "replace") (Some 0) ∅ Demo.s0
  = (Raise ArithmeticError, Demo.s0) /\
  set_df "t" Demo.df10 (VStr "replace") (Some (-5)) ∅ Demo.s0
  = (Raise (ValueError "number sections must be larger than 0."), Demo.s0).
Proof.
  split; [lia|]. split; [reflexivity|]. split.
  - exact (@set_df_bad_chunksize Demo.backend "t" Demo.df10 (VStr "replace") 0 ∅
             Demo.s0 ltac:(lia) eq_refl).
  - exact (@set_df_bad_chunksize Demo.backend "t" Demo.df10 (VStr "replace") (-5) ∅
             Demo.s0 ltac:(lia) eq_refl).
Defined.

Lemma set_df_frame_witness :
  logs_of (trace (set_df "t" df10 (VStr "replace") (Some 3) ∅ (start logged ∅)).2)
  = [LogInfo (Wrote "t" (10%nat, 1%nat))] /\
  logs_of (trace (set_df "t" df10 (VStr "replace") (Some 0) ∅ (start logged ∅)).2)
  = [].
Proof.
  split.
  - exact (proj2 (proj2 (@set_df_frame backend "t" df10 (VStr "replace") (Some 3) ∅
                           (start logged ∅)))).
  - exact (proj2 (proj2 (@set_df_frame backend "t" df10 (VStr "replace") (Some 0) ∅
                           (start logged ∅)))).
Defined.

(** The null in the fourth row sits in the second chunk: the first chunk
    is written, the second is refused, and the table keeps three rows. *)
Lemma set_df_no_rollback_witness :
  engine ready = Some the_engine /\ 0 < 3 /\ 3 < size with_null /\
  (∅ : kwargs) !! "dfs" = None /\
  exists e s',
    @set_df strict_backend "t" with_null (VStr "replace") (Some 3) ∅
      (@mkState strict_backend ready ∅ [])
    = (Raise e, s') /\
    (length ∘ rows) <$> (store s' !! "t") = Some 3%nat /\
    length (writes_of (trace s')) = 2%nat.
Proof.
  split; [reflexivity|]. split; [lia|]. split; [reflexivity|]. split; [reflexivity|].
  destruct (@set_df_no_rollback strict_backend "t" with_null (VStr "replace") 3 ∅
              (@mkState strict_backend ready ∅ []) the_engine eq_refl
              ltac:(lia) eq_refl ltac:(apply lookup_empty))
    as (c0 & c1 & rest & Hsplit & Hrun).
  vm_compute in Hsplit. inversion Hsplit; subst c0 c1 rest.
  eexists _, _. split; [eapply Hrun; reflexivity|].
  split; reflexivity.
Defined.

End WritingFrameExamples.


(** ** Chunks: empty sections and the way back *)

Section Chunks.

Lemma length_reshape_sizes {A} (sizes : list nat) : forall (l : list A),
  (sum_list sizes <= length l)%nat -> map length (reshape sizes l) = sizes.
Proof.
  induction sizes as [|n sizes IH]; intros l Hl; [reflexivity|].
  cbn [reshape map]. simpl in Hl.
  rewrite length_take, IH by (rewrite length_drop; lia). f_equal. lia.
Qed.

(** More chunks than rows: when ceil(size / chunksize) exceeds the row
    count n, the first n chunks hold one row each and every further chunk
    is empty, so [set_df] will issue writes of empty frames. *)
Theorem split_df_more_chunks_than_rows (df : DataFrame) (chunksize : Z) :
  0 < chunksize -> chunksize < size df ->
  let k := Z.to_nat (ceil_div (size df) chunksize) in
  let n := length (rows df) in
  (n < k)%nat ->
  exists chunks,
    __split_df df chunksize = Ok chunks /\
    map (fun c => length (rows c)) chunks
    = (replicate n 1%nat ++ replicate (k - n) 0%nat)%list.
Proof.
  intros Hc Hs k n Hnk. eexists. split; [by apply split_df_reshape|].
  fold k n. rewrite map_map. cbn [with_rows rows].
  change (fun x : list (list value) => length x) with (@length (list value)).
  rewrite length_reshape_sizes by (rewrite sum_sizes_of by lia; done).
  unfold sizes_of. by rewrite Nat.mod_small, Nat.div_small.
Qed.

Lemma split_df_more_chunks_than_rows_witness :
  0 < 3 /\ 3 < size Demo.wide /\
  exists chunks,
    __split_df Demo.wide 3 = Ok chunks /\
    map (fun c => length (rows c)) chunks = [1; 1; 0; 0; 0; 0; 0]%nat.
Proof.
  split; [lia|]. split; [reflexivity|].
  exact (split_df_more_chunks_than_rows Demo.wide 3 ltac:(lia) eq_refl
           ltac:(vm_compute; lia)).
Defined.

Lemma to_list_chunks (dfs : list DataFrame) :
  Pd.to_list (chunks_then dfs Pd.Stop) = Ok dfs.
Proof. induction dfs as [|d dfs IH]; simpl; [|rewrite IH]; reflexivity. Qed.

Lemma to_list_gtake (dfs : list DataFrame) (rest : Pd.generator) : forall n,
  (n <= length dfs)%nat ->
  Pd.to_list (Pd.gtake n (chunks_then dfs rest)) = Ok (take n dfs).
Proof.
  induction dfs as [|d dfs IH]; intros [|n] Hn; simpl in *; try reflexivity; try lia.
  by rewrite IH by lia.
Qed.

(** Splitting and joining are inverse: [pd.concat] over the chunks of
    [__split_df], in their order, gives the table back, columns and
    rows. *)
Theorem split_df_concat (df : DataFrame) (chunksize : Z) :
  0 < chunksize -> chunksize < size df ->
  exists chunks,
    __split_df df chunksize = Ok chunks /\
    Pd.concat (chunks_then chunks Pd.Stop) = Ok df.
Proof.
  intros Hc Hs.
  destruct (split_df_cover df chunksize Hc Hs) as (chunks & Hsplit & _ & Hpos & Hcat).
  exists chunks. split; [exact Hsplit|].
  unfold Pd.concat. rewrite to_list_chunks.
  destruct chunks as [|c0 rest]; [simpl in Hpos; lia|].
  rewrite Hcat.
  rewrite split_df_reshape in Hsplit by done.
  destruct (reshape _ _) as [|r0 rs]; [discriminate|].
  simpl in Hsplit. inversion Hsplit. simpl. by destruct df.
Qed.

Lemma split_df_concat_witness :
  0 < 3 /\ 3 < size Demo.df10 /\
  exists chunks,
    __split_df Demo.df10 3 = Ok chunks /\
    Pd.concat (chunks_then chunks Pd.Stop) = Ok Demo.df10.
Proof.
  split; [lia|]. split; [reflexivity|].
  exact (split_df_concat Demo.df10 3 ltac:(lia) eq_refl).
Defined.

End Chunks.

(** ** Reading: what [get_df] returns and leaves behind *)

Section ReadingMore.

Context {B : Backend}.
Implicit Types (s : state B) (kw : kwargs).

(** A full read joins the chunks in arrival order: the result has the
    columns of the first chunk and the rows of all chunks, one after the
    other; a configured logger gets the shape of the result. *)
Theorem get_df_reads_all table_name kw s con df0 dfs d :
  engine (self s) = Some con ->
  read_sql_table B table_name con (with_default_chunksize kw) (store s)
  = (Ok (chunks_then (df0 :: dfs) Pd.Stop), d) ->
  get_df table_name None kw s
  = (Ok (Some (joined df0 dfs)),
     mkState (self s) d
       (trace s ++ [ReadSqlTable table_name (with_default_chunksize kw)]
          ++ (if has_logger (self s)
              then [LogInfo (Fetched table_name (shape (joined df0 dfs)))] else []))%list).
Proof.
  intros He Hread. rewrite (get_df_run _ _ _ _ _ _ _ He Hread).
  cbn [Pd.islice]. unfold Pd.concat. by rewrite to_list_chunks.
Qed.

(** [chunk_count = n], within [sys.maxsize], fetches n chunks and no
    more: when the cursor holds at least n chunks the result is the join
    of the first n, whatever comes after them, be it more chunks or a
    fetch that would raise. *)
Theorem get_df_chunk_count_lazy table_name kw s con (chunks : list DataFrame)
  (rest : Pd.generator) (n : Z) d :
  engine (self s) = Some con ->
  read_sql_table B table_name con (with_default_chunksize kw) (store s)
  = (Ok (chunks_then chunks rest), d) ->
  0 < n -> n <= Pd.sys_maxsize -> (Z.to_nat n <= length chunks)%nat ->
  exists df0 dfs,
    take (Z.to_nat n) chunks = df0 :: dfs /\
    get_df table_name (Some n) kw s
    = (Ok (Some (joined df0 dfs)),
       mkState (self s) d
         (trace s ++ [ReadSqlTable table_name (with_default_chunksize kw)]
            ++ (if has_logger (self s)
                then [LogInfo (Fetched table_name (shape (joined df0 dfs)))] else []))%list).
Proof.
  intros He Hread Hn Hmax Hlen.
  destruct (take (Z.to_nat n) chunks) as [|df0 dfs] eqn:Htake.
  { apply (f_equal length) in Htake. rewrite length_take in Htake. simpl in Htake. lia. }
  exists df0, dfs. split; [reflexivity|].
  rewrite (get_df_run _ _ _ _ _ _ _ He Hread).
  cbn [Pd.islice]. destruct (Z.ltb_spec n 0) as [?|_]; [lia|].
  destruct (Z.ltb_spec Pd.sys_maxsize n) as [?|_]; [lia|].
  unfold Pd.concat. by rewrite to_list_gtake, Htake.
Qed.

(** A negative [chunk_count] is not an error for the caller: the
    [ValueError] of [islice] is caught and [get_df] returns [None] with
    its warning, whatever the table holds. *)
Theorem get_df_negative_chunk_count table_name kw s con dfs (n : Z) d :
  engine (self s) = Some con ->
  read_sql_table B table_name con (with_default_chunksize kw) (store s) = (Ok dfs, d) ->
  n < 0 ->
  get_df table_name (Some n) kw s
  = (Ok None, after_read s d table_name (with_default_chunksize kw) true).
Proof.
  intros He Hread Hn. rewrite (get_df_run _ _ _ _ _ _ _ He Hread).
  cbn [Pd.islice]. by destruct (Z.ltb_spec n 0) as [_|?]; [|lia].
Qed.

(** Any [ValueError] raised while the chunks are fetched is taken for an
    empty read: [get_df] returns [None] with its warning and the
    exception is lost. *)
Theorem get_df_swallows_ValueError table_name chunk_count kw s con dfs sliced msg d :
  engine (self s) = Some con ->
  read_sql_table B table_name con (with_default_chunksize kw) (store s) = (Ok dfs, d) ->
  Pd.islice dfs chunk_count = Ok sliced ->
  Pd.to_list sliced = Raise (ValueError msg) ->
  get_df table_name chunk_count kw s
  = (Ok None, after_read s d table_name (with_default_chunksize kw) true).
Proof.
  intros He Hread Hs Hl. rewrite (get_df_run _ _ _ _ _ _ _ He Hread), Hs.
  unfold Pd.concat. by rewrite Hl.
Qed.

(** [get_df] never changes the instance and never creates an engine.
    With a logger it writes exactly one record when it does not raise,
    the shape of the result or the warning of the empty read, and none
    when it raises. *)
Theorem get_df_frame table_name chunk_count kw s :
  let out := get_df table_name chunk_count kw s in
  self out.2 = self s /\
  creations_of (trace out.2) = creations_of (trace s) /\
  logs_of (trace out.2)
  = (logs_of (trace s)
     ++ (if has_logger (self s) then
           match out.1 with
           | Ok (Some df) => [LogInfo (Fetched table_name (shape df))]
           | Ok None => [LogWarning (NoObjects table_name)]
           | Raise _ => []
           end
         else []))%list.
Proof.
  cbv zeta. destruct (engine (self s)) as [con|] eqn:He.
  - destruct (read_sql_table B table_name con (with_default_chunksize kw) (store s))
      as [r d] eqn:Hread.
    rewrite (get_df_run _ _ _ _ _ _ _ He Hread). unfold after_read.
    destruct r as [dfs|e]; simpl.
    + destruct (match Pd.islice dfs chunk_count with
                | Ok sliced => Pd.concat sliced
                | Raise e => Raise e
                end) as [df|e]; simpl.
      * destruct (has_logger (self s)); repeat split; simpl;
          rewrite ?logs_of_app, ?creations_of_app; simpl; by rewrite ?app_nil_r.
      * destruct (is_ValueError e), (has_logger (self s)); repeat split; simpl;
          rewrite ?logs_of_app, ?creations_of_app; simpl; by rewrite ?app_nil_r.
    + destruct (has_logger (self s)); repeat split; simpl;
        rewrite ?logs_of_app, ?creations_of_app; simpl; by rewrite ?app_nil_r.
  - unfold get_df, bind, getattr_engine. rewrite He. simpl.
    destruct (has_logger (self s)); by rewrite app_nil_r.
Qed.

End ReadingMore.

Section ReadingMoreExamples.

Import Demo.

Lemma get_df_reads_all_witness :
  engine ready = Some the_engine /\
  get_df "t" None ∅ (start ready two_tables)
  = (Ok (Some (joined df10 [])),
     @mkState backend ready two_tables
       [ReadSqlTable "t" (<["chunksize" := VInt 1000000]> ∅)]) /\
  rows (joined df10 []) = rows df10.
Proof.
  split; [reflexivity|]. split; [|reflexivity].
  exact (@get_df_reads_all backend "t" ∅ (start ready two_tables) the_engine
           df10 [] two_tables eq_refl eq_refl).
Defined.

Lemma get_df_chunk_count_lazy_witness :
  engine ready = Some the_engine /\ 0 < 1 /\ 1 <= Pd.sys_maxsize /\
  exists df0 dfs,
    take 1 [df10] = df0 :: dfs /\
    @get_df (lossy_backend (BackendError "connection lost")) "t" (Some 1) ∅
      (@mkState (lossy_backend (BackendError "connection lost")) ready two_tables [])
    = (Ok (Some (joined df0 dfs)),
       @mkState (lossy_backend (BackendError "connection lost")) ready two_tables
         [ReadSqlTable "t" (<["chunksize" := VInt 1000000]> ∅)]).
Proof.
  split; [reflexivity|]. split; [lia|]. split; [discriminate|].
  exact (@get_df_chunk_count_lazy (lossy_backend (BackendError "connection lost"))
           "t" ∅
           (@mkState (lossy_backend (BackendError "connection lost")) ready two_tables [])
           the_engine [df10] (Pd.Fail (BackendError "connection lost")) 1 two_tables
           eq_refl eq_refl ltac:(lia) ltac:(discriminate) ltac:(simpl; lia)).
Defined.

Lemma get_df_negative_chunk_count_witness :
  engine ready = Some the_engine /\ -1 < 0 /\
  get_df "t" (Some (-1)) ∅ (start ready two_tables)
  = (Ok None,
     @mkState backend ready two_tables
       [ReadSqlTable "t" (<["chunksize" := VInt 1000000]> ∅)]).
Proof.
  split; [reflexivity|]. split; [lia|].
  exact (@get_df_negative_chunk_count backend "t" ∅ (start ready two_tables)
           the_engine (Pd.Yield df10 Pd.Stop) (-1) two_tables
           eq_refl eq_refl ltac:(lia)).
Defined.

Lemma get_df_swallows_ValueError_witness :
  engine logged = Some the_engine /\
  @get_df (lossy_backend (ValueError "invalid continuation byte")) "t" None ∅
    (@mkState (lossy_backend (ValueError "invalid continuation byte")) logged two_tables [])
  = (Ok None,
     @mkState (lossy_backend (ValueError "invalid continuation byte")) logged two_tables
       [ReadSqlTable "t" (<["chunksize" := VInt 1000000]> ∅);
        LogWarning (NoObjects "t")]).
Proof.
  split; [reflexivity|].
  exact (@get_df_swallows_ValueError (lossy_backend (ValueError "invalid continuation byte"))
           "t" None ∅
           (@mkState (lossy_backend (ValueError "invalid continuation byte")) logged
              two_tables [])
           the_engine _ _ "invalid continuation byte" two_tables
           eq_refl eq_refl eq_refl eq_refl).
Defined.

End ReadingMoreExamples.
